(** * BookMySlot appointment system: validation, booking service, export and list view

    A shallow embedding of
      - [client/src/utils/validation.js]           (module [Validation]),
      - [server/models/Booking.js] (Mongoose schema) and
        [server/routes/bookings.js]                (module [Server]),
      - [client/src/components/BookingsTable.jsx]  (module [Table]),
    together with the properties the specification states about them.

    Strings.  A JavaScript string is a sequence of UTF-16 code units.  The
    development models the code units 0..255 (the Latin-1 range) with the
    standard [string]/[ascii] types: on that range [\s], [\D], [trim] and
    [toLowerCase] are given exactly as ECMAScript defines them, and [<] on
    strings compares code units lexicographically. *)

From Stdlib Require Import ZArith NArith Ascii String List Bool Lia Sorting.Permutation.
From stdpp Require Import gmap strings list fin_maps.

Open Scope string_scope.

(* ===================================================================== *)
(** ** JavaScript strings                                                 *)
(* ===================================================================== *)

Module JsString.

Definition chars (s : string) : list ascii := list_ascii_of_string s.
Definition str (l : list ascii) : string := string_of_list_ascii l.

Definition code (c : ascii) : N := N_of_ascii c.

(** [\s] of a regular expression, which is also the set [trim] strips
    (WhiteSpace and LineTerminator): TAB, LF, VT, FF, CR, SP, NBSP. *)
Definition isWhiteSpace (c : ascii) : bool :=
  ((9 <=? code c) && (code c <=? 13) || (code c =? 32) || (code c =? 160))%N.

(** [\d] is [0-9]; [\D] is its complement. *)
Definition isDigit (c : ascii) : bool := ((48 <=? code c) && (code c <=? 57))%N.
Definition isNonDigit (c : ascii) : bool := negb (isDigit c).

(** [String.prototype.trim] *)
Fixpoint trimStart (l : list ascii) : list ascii :=
  match l with
  | c :: l' => if isWhiteSpace c then trimStart l' else l
  | [] => []
  end.
Definition trimEnd (l : list ascii) : list ascii := rev (trimStart (rev l)).
Definition trimChars (l : list ascii) : list ascii := trimEnd (trimStart l).
Definition trim (s : string) : string := str (trimChars (chars s)).

(** [String.prototype.toLowerCase]: A-Z, and the Latin-1 capitals
    U+00C0..U+00DE except the multiplication sign U+00D7, move up by 32. *)
Definition lowerChar (c : ascii) : ascii :=
  let n := code c in
  if ((65 <=? n) && (n <=? 90) || (192 <=? n) && (n <=? 222) && negb (n =? 215))%N
  then ascii_of_N (n + 32) else c.
Definition toLowerCase (s : string) : string := str (map lowerChar (chars s)).

(** [s.length] *)
Definition len (s : string) : nat := List.length (chars s).

(** [String.prototype.includes]: the search string occurs at some index. *)
Fixpoint startsWith (t s : list ascii) : bool :=
  match t, s with
  | [], _ => true
  | a :: t', b :: s' => if ascii_dec a b then startsWith t' s' else false
  | _ :: _, [] => false
  end.
Fixpoint includesChars (s t : list ascii) : bool :=
  startsWith t s ||
  match s with
  | [] => false
  | _ :: s' => includesChars s' t
  end.
Definition includes (s t : string) : bool := includesChars (chars s) (chars t).

(** [a < b] on strings: lexicographic on code units, a proper prefix is
    smaller. *)
Fixpoint ltChars (a b : list ascii) : bool :=
  match a, b with
  | _, [] => false
  | [], _ :: _ => true
  | x :: a', y :: b' =>
      if (code x <? code y)%N then true
      else if (code y <? code x)%N then false
      else ltChars a' b'
  end.
Definition lt (a b : string) : bool := ltChars (chars a) (chars b).

(** A value used as a condition: [undefined] and [""] are falsy. *)
Definition truthy (v : option string) : bool :=
  match v with
  | Some s => negb (String.eqb s "")
  | None => false
  end.

End JsString.

(* ===================================================================== *)
(** ** Regular expressions                                                *)
(* ===================================================================== *)

Module Regex.
Import JsString.

(** The fragment of ECMAScript patterns the sources use: character
    classes, concatenation and [+]; [Alt]/[Star] complete the algebra. *)
Inductive regex : Type :=
| Void : regex
| Eps : regex
| Class : (ascii -> bool) -> regex
| Cat : regex -> regex -> regex
| Alt : regex -> regex -> regex
| Star : regex -> regex.

Definition Plus (r : regex) : regex := Cat r (Star r).
Definition Lit (c : ascii) : regex := Class (fun x => if ascii_dec x c then true else false).

(** The language of a pattern. *)
Inductive matches : regex -> list ascii -> Prop :=
| MEps : matches Eps []
| MClass p c : p c = true -> matches (Class p) [c]
| MCat r1 r2 s1 s2 : matches r1 s1 -> matches r2 s2 -> matches (Cat r1 r2) (s1 ++ s2)
| MAltL r1 r2 s : matches r1 s -> matches (Alt r1 r2) s
| MAltR r1 r2 s : matches r2 s -> matches (Alt r1 r2) s
| MStarNil r : matches (Star r) []
| MStarApp r s1 s2 : matches r s1 -> matches (Star r) s2 -> matches (Star r) (s1 ++ s2).

(** The matcher: Brzozowski derivatives. *)
Fixpoint nullable (r : regex) : bool :=
  match r with
  | Void => false
  | Eps => true
  | Class _ => false
  | Cat r1 r2 => nullable r1 && nullable r2
  | Alt r1 r2 => nullable r1 || nullable r2
  | Star _ => true
  end.

Fixpoint deriv (c : ascii) (r : regex) : regex :=
  match r with
  | Void => Void
  | Eps => Void
  | Class p => if p c then Eps else Void
  | Cat r1 r2 =>
      if nullable r1 then Alt (Cat (deriv c r1) r2) (deriv c r2)
      else Cat (deriv c r1) r2
  | Alt r1 r2 => Alt (deriv c r1) (deriv c r2)
  | Star r1 => Cat (deriv c r1) (Star r1)
  end.

Fixpoint fullMatch (r : regex) (s : list ascii) : bool :=
  match s with
  | [] => nullable r
  | c :: s' => fullMatch (deriv c r) s'
  end.

(** [/^r$/.test(s)] (no flags): the whole of [s] matches [r]. *)
Definition test_anchored (r : regex) (s : string) : bool := fullMatch r (chars s).

(** [s.replace(/[cls]/g, '')] for a one-character class: scanning left to
    right, every match (one character of the class) is replaced by the
    empty string and every other character is copied. *)
Fixpoint replaceAllClass (cls : ascii -> bool) (s : list ascii) : list ascii :=
  match s with
  | [] => []
  | c :: s' => if cls c then [] ++ replaceAllClass cls s' else c :: replaceAllClass cls s'
  end.

End Regex.

(* ===================================================================== *)
(** ** client/src/utils/validation.js                                     *)
(* ===================================================================== *)

Module Validation.
Import JsString Regex.

(** [[^\s@]] *)
Definition notSpaceAt (c : ascii) : bool :=
  negb (isWhiteSpace c) && (if ascii_dec c "@" then false else true).

(** [/^[^\s@]+@[^\s@]+\.[^\s@]+$/] *)
Definition emailRegex : regex :=
  Cat (Plus (Class notSpaceAt))
    (Cat (Lit "@")
       (Cat (Plus (Class notSpaceAt))
          (Cat (Lit ".") (Plus (Class notSpaceAt))))).

Definition validateEmail (email : string) : bool := test_anchored emailRegex email.

Definition validatePhone (phone : string) : bool :=
  let digitsOnly := replaceAllClass isNonDigit (chars phone) in
  Nat.eqb (List.length digitsOnly) 10.

(** [value && value.trim().length > 0], read as a condition. *)
Definition validateRequired (value : option string) : bool :=
  match value with
  | Some v => negb (String.eqb v "") && Nat.ltb 0 (len (trim v))
  | None => false
  end.

Record FormData : Type := {
  fd_name : option string;
  fd_email : option string;
  fd_phone : option string;
  fd_date : option string;
  fd_timeSlot : option string
}.

(** A field that passed [validateRequired] is a string. *)
Definition the (v : option string) : string := default "" v.

Definition validateBookingForm (formData : FormData) : gmap string string :=
  let errors : gmap string string := ∅ in
  let errors :=
    if negb (validateRequired (fd_name formData))
    then <["name" := "Name is required"]> errors
    else if Nat.ltb (len (trim (the (fd_name formData)))) 2
         then <["name" := "Name must be at least 2 characters"]> errors
         else errors in
  let errors :=
    if negb (validateRequired (fd_email formData))
    then <["email" := "Email is required"]> errors
    else if negb (validateEmail (the (fd_email formData)))
         then <["email" := "Please enter a valid email address"]> errors
         else errors in
  let errors :=
    if negb (validateRequired (fd_phone formData))
    then <["phone" := "Phone number is required"]> errors
    else if negb (validatePhone (the (fd_phone formData)))
         then <["phone" := "Please enter exactly 10 digits"]> errors
         else errors in
  let errors :=
    if negb (validateRequired (fd_date formData))
    then <["date" := "Please select a date"]> errors
    else errors in
  let errors :=
    if negb (validateRequired (fd_timeSlot formData))
    then <["timeSlot" := "Please select a time slot"]> errors
    else errors in
  errors.

End Validation.

(* ===================================================================== *)
(** ** server/models/Booking.js and server/routes/bookings.js             *)
(* ===================================================================== *)

Module Server.
Import JsString Regex.

(** A MongoDB ObjectId: 12 bytes, read as a number. *)
Definition ObjectId : Type := N.

(** A stored booking document.  [createdAt] is a [Date], kept as its time
    value (milliseconds since the epoch). *)
Record Booking : Type := {
  _id : ObjectId;
  name : string;
  email : string;
  phone : string;
  date : string;
  timeSlot : string;
  createdAt : Z
}.

(** The server: the [bookings] collection in insertion order, and the
    ObjectId generator of the process.  The database is taken to be
    reachable, so the [catch] branches of the routes are reached by the
    errors the ODM itself raises (ValidationError, CastError). *)
Record State : Type := {
  db : list Booking;
  oidCounter : N
}.

(** The JSON envelope a route answers with. *)
Inductive Payload : Type :=
| NoData
| Doc (b : Booking)
| Docs (l : list Booking).

Record Response : Type := {
  status : Z;
  success : bool;
  message : option string;
  count : option nat;
  data : Payload
}.

Definition failure (st : Z) (msg : string) : Response :=
  {| status := st; success := false; message := Some msg; count := None; data := NoData |}.

(** *** The schema: setters and validators *)

(** [/^[^\s@]+@[^\s@]+\.[^\s@]+$/] of the [match] option. *)
Definition emailMatch : regex := Validation.emailRegex.

(** Setters declared by the schema ([trim: true], [lowercase: true]).  On
    the modelled code units the two setters of [email] commute. *)
Definition set_name (v : string) : string := trim v.
Definition set_email (v : string) : string := trim (toLowerCase v).
Definition set_phone (v : string) : string := trim v.

(** Validators of one path run in order, [required] first, and the first
    failure is the error of the path.  [required] on a String fails on
    the empty string; the [match] validator passes the empty string. *)
Definition validate_name (v : string) : option string :=
  if Nat.eqb (len v) 0 then Some "Name is required"
  else if Nat.ltb (len v) 2 then Some "Name must be at least 2 characters"
  else if Nat.ltb 100 (len v) then Some "Name cannot exceed 100 characters"
  else None.

Definition validate_email (v : string) : option string :=
  if Nat.eqb (len v) 0 then Some "Email is required"
  else if negb (test_anchored emailMatch v) then Some "Please provide a valid email address"
  else None.

Definition validate_phone (v : string) : option string :=
  if Nat.eqb (len v) 0 then Some "Phone number is required"
  else if Nat.ltb (len v) 10 then Some "Phone number must be at least 10 digits"
  else None.

Definition validate_date (v : string) : option string :=
  if Nat.eqb (len v) 0 then Some "Appointment date is required" else None.

Definition validate_timeSlot (v : string) : option string :=
  if Nat.eqb (len v) 0 then Some "Time slot is required" else None.

(** [Object.values(error.errors).map(err => err.message)]: the messages of
    the failing paths, in schema order. *)
Definition validationMessages (b : Booking) : list string :=
  omap id [validate_name (name b); validate_email (email b);
           validate_phone (phone b); validate_date (date b);
           validate_timeSlot (timeSlot b)].

(** [messages.join(', ')] *)
Fixpoint join (sep : string) (l : list string) : string :=
  match l with
  | [] => ""
  | [m] => m
  | m :: l' => m ++ sep ++ join sep l'
  end.

(** [new Booking({...})]: a fresh [_id] from the generator, the setters
    applied, [createdAt] defaulting to [Date.now()]. *)
Definition newBooking (now : Z) (nm em ph dt ts : string) (st : State) : Booking * State :=
  ({| _id := oidCounter st;
      name := set_name nm; email := set_email em; phone := set_phone ph;
      date := dt; timeSlot := ts; createdAt := now |},
   {| db := db st; oidCounter := (oidCounter st + 1)%N |}).

(** [doc.save()]: validate, then insert. *)
Definition save (b : Booking) (st : State) : (list string) + (Booking * State) :=
  match validationMessages b with
  | [] => inr (b, {| db := db st ++ [b]; oidCounter := oidCounter st |})
  | msgs => inl msgs
  end.

(** The body of a create request: each field a string, or absent. *)
Record Body : Type := {
  b_name : option string;
  b_email : option string;
  b_phone : option string;
  b_date : option string;
  b_timeSlot : option string
}.

Definition the (v : option string) : string := default "" v.

(** [router.post('/')]; [now] is the reading of [Date.now()]. *)
Definition create (now : Z) (body : Body) (st : State) : Response * State :=
  if negb (truthy (b_name body)) || negb (truthy (b_email body)) ||
     negb (truthy (b_phone body)) || negb (truthy (b_date body)) ||
     negb (truthy (b_timeSlot body))
  then (failure 400 "All fields are required", st)
  else
    let '(newB, st1) :=
      newBooking now (the (b_name body)) (the (b_email body)) (the (b_phone body))
                 (the (b_date body)) (the (b_timeSlot body)) st in
    match save newB st1 with
    | inr (savedBooking, st2) =>
        ({| status := 201; success := true;
            message := Some "Booking created successfully";
            count := None; data := Doc savedBooking |}, st2)
    | inl messages => (failure 400 (join ", " messages), st1)
    end.

(** *** Queries *)

(** [.sort({ createdAt: -1 })]: the documents in non-increasing order of
    [createdAt]; documents with equal keys are kept in collection order. *)
Fixpoint insertDesc (x : Booking) (l : list Booking) : list Booking :=
  match l with
  | [] => [x]
  | y :: l' => if (createdAt y <? createdAt x)%Z then x :: l else y :: insertDesc x l'
  end.
Definition sortCreatedAtDesc (l : list Booking) : list Booking := foldr insertDesc [] l.

(** [Booking.find()] *)
Definition find (st : State) : list Booking := db st.

(** [router.get('/')] *)
Definition listAll (st : State) : Response :=
  let bookings := sortCreatedAtDesc (find st) in
  {| status := 200; success := true; message := None;
     count := Some (List.length bookings); data := Docs bookings |}.

(** *** Deletion *)

Definition hexDigit (c : ascii) : option N :=
  let n := code c in
  if ((48 <=? n) && (n <=? 57))%N then Some (n - 48)%N
  else if ((97 <=? n) && (n <=? 102))%N then Some (n - 87)%N
  else if ((65 <=? n) && (n <=? 70))%N then Some (n - 55)%N
  else None.

Fixpoint hexValue (acc : N) (l : list ascii) : option N :=
  match l with
  | [] => Some acc
  | c :: l' =>
      match hexDigit c with
      | Some d => hexValue (acc * 16 + d)%N l'
      | None => None
      end
  end.

(** The cast the ODM applies to the [_id] of a query: a string is an
    ObjectId when it is 24 hexadecimal characters; any other string makes
    the query reject with a CastError. *)
Definition castObjectId (id : string) : option ObjectId :=
  if Nat.eqb (len id) 24 then hexValue 0%N (chars id) else None.

Fixpoint removeFirst (oid : ObjectId) (l : list Booking) : option (Booking * list Booking) :=
  match l with
  | [] => None
  | d :: l' =>
      if (_id d =? oid)%N then Some (d, l')
      else match removeFirst oid l' with
           | Some (x, r) => Some (x, d :: r)
           | None => None
           end
  end.

Inductive Outcome (A : Type) : Type :=
| Resolved (a : A)
| Rejected (errorName : string).
Arguments Resolved {A} a.
Arguments Rejected {A} errorName.

(** [Booking.findByIdAndDelete(id)]: the deleted document, or [null]. *)
Definition findByIdAndDelete (id : string) (st : State) : Outcome (option Booking * State) :=
  match castObjectId id with
  | None => Rejected "CastError"
  | Some oid =>
      match removeFirst oid (db st) with
      | Some (d, rest) => Resolved (Some d, {| db := rest; oidCounter := oidCounter st |})
      | None => Resolved (None, st)
      end
  end.

(** [router.delete('/:id')] *)
Definition deleteOne (id : string) (st : State) : Response * State :=
  match findByIdAndDelete id st with
  | Resolved (None, st') => (failure 404 "Booking not found", st')
  | Resolved (Some _, st') =>
      ({| status := 200; success := true;
          message := Some "Booking deleted successfully";
          count := None; data := NoData |}, st')
  | Rejected _ => (failure 500 "Server error. Please try again later.", st)
  end.

(** *** Excel export *)

Inductive Cell : Type :=
| CEmpty
| CNum (n : nat)
| CStr (s : string).

Record Column : Type := { header : string; key : string; width : nat }.

(** A worksheet: its column definitions and its rows of cell values
    (fonts, fills and borders do not change the values). *)
Record Worksheet : Type := {
  columns : list Column;
  rows : list (list Cell)
}.

Definition addWorksheet : Worksheet := {| columns := []; rows := [] |}.

(** [worksheet.columns = cols]: the headers become row 1. *)
Definition setColumns (cols : list Column) (ws : Worksheet) : Worksheet :=
  {| columns := cols; rows := [map (fun c => CStr (header c)) cols] |}.

(** [worksheet.addRow(obj)]: the values of [obj] are placed by column key. *)
Definition addRow (obj : gmap string Cell) (ws : Worksheet) : Worksheet :=
  {| columns := columns ws;
     rows := rows ws ++ [map (fun c => default CEmpty (obj !! key c)) (columns ws)] |}.

Definition exportColumns : list Column :=
  [ {| header := "S.No"; key := "sno"; width := 8 |};
    {| header := "Name"; key := "name"; width := 25 |};
    {| header := "Email"; key := "email"; width := 30 |};
    {| header := "Phone"; key := "phone"; width := 15 |};
    {| header := "Date"; key := "date"; width := 20 |};
    {| header := "Time Slot"; key := "timeSlot"; width := 20 |};
    {| header := "Booked On"; key := "createdAt"; width := 22 |} ].

Section ExportRoute.
(** [new Date(t).toLocaleString('en-IN', { dateStyle: 'medium',
    timeStyle: 'short' })], provided by the runtime's locale data. *)
Variable toLocaleString : Z -> string.

Definition rowObject (booking : Booking) (index : nat) : gmap string Cell :=
  <["createdAt" := CStr (toLocaleString (createdAt booking))]>
  (<["timeSlot" := CStr (timeSlot booking)]>
  (<["date" := CStr (date booking)]>
  (<["phone" := CStr (phone booking)]>
  (<["email" := CStr (email booking)]>
  (<["name" := CStr (name booking)]>
  (<["sno" := CNum (index + 1)]> ∅)))))).

(** [bookings.forEach((booking, index) => worksheet.addRow({...}))] *)
Fixpoint forEachAddRow (bookings : list Booking) (index : nat) (ws : Worksheet) : Worksheet :=
  match bookings with
  | [] => ws
  | booking :: rest => forEachAddRow rest (S index) (addRow (rowObject booking index) ws)
  end.

(** The worksheet built from a list of bookings. *)
Definition buildWorksheet (bookings : list Booking) : Worksheet :=
  forEachAddRow bookings 0 (setColumns exportColumns addWorksheet).

(** [router.get('/export')] *)
Definition export (st : State) : Worksheet :=
  buildWorksheet (sortCreatedAtDesc (find st)).
End ExportRoute.

End Server.

(* ===================================================================== *)
(** ** client/src/components/BookingsTable.jsx                            *)
(* ===================================================================== *)

Module Table.
Import JsString.
Export Server.

(** Arrays are objects: a heap maps a reference to the array's elements.
    The bookings the table receives are the JSON image of the stored
    documents, with the same fields; [createdAt] stands for the time
    value [new Date(...)] reads from it. *)
Abbreviation Ref := nat.
Abbreviation Heap := (gmap nat (list Booking)).

Definition allocArray (l : list Booking) (h : Heap) : Ref * Heap :=
  let r := fresh (dom h) in (r, <[r := l]> h).

(** The arrow function given to [bookings.filter]. *)
Definition keepBooking (searchTerm lowerSearch : string) (booking : Booking) : bool :=
  includes (toLowerCase (name booking)) lowerSearch ||
  includes (toLowerCase (email booking)) lowerSearch ||
  includes (phone booking) searchTerm ||
  includes (toLowerCase (date booking)) lowerSearch ||
  includes (toLowerCase (timeSlot booking)) lowerSearch.

(** The array [filteredBookings] denotes. *)
Definition filterArray (bookings : list Booking) (searchTerm : string) : list Booking :=
  if negb (truthy (Some searchTerm)) then bookings
  else
    let lowerSearch := toLowerCase searchTerm in
    List.filter (keepBooking searchTerm lowerSearch) bookings.

(** [filteredBookings]: with an empty term the very array [bookings] is
    returned; otherwise [Array.prototype.filter] allocates a new one. *)
Definition filteredBookings (bookings : Ref) (searchTerm : string) (h : Heap)
  : option (Ref * Heap) :=
  if negb (truthy (Some searchTerm)) then Some (bookings, h)
  else
    match h !! bookings with
    | Some arr =>
        let lowerSearch := toLowerCase searchTerm in
        Some (allocArray (List.filter (keepBooking searchTerm lowerSearch) arr) h)
    | None => None
    end.

(** The sort dropdown offers these fields and directions. *)
Inductive SortField : Type := FCreatedAt | FName | FDate.
Inductive Direction : Type := Asc | Desc.
Record SortConfig : Type := { field : SortField; direction : Direction }.

(** The two kinds of value the comparator compares. *)
Inductive SortKey : Type :=
| KDate (t : Z)
| KStr (s : string).

(** [aValue < bValue] *)
Definition keyLt (a b : SortKey) : bool :=
  match a, b with
  | KDate x, KDate y => (x <? y)%Z
  | KStr x, KStr y => lt x y
  | _, _ => false
  end.

(** [x?.toLowerCase() || ''] on a string property. *)
Definition lowerOrEmpty (x : string) : string :=
  let l := toLowerCase x in if truthy (Some l) then l else "".

Definition sortValue (sortConfig : SortConfig) (a : Booking) : SortKey :=
  match field sortConfig with
  | FCreatedAt => KDate (createdAt a)
  | FName => KStr (lowerOrEmpty (name a))
  | FDate => KStr (lowerOrEmpty (date a))
  end.

(** The comparator given to [sorted.sort]. *)
Definition compareBookings (sortConfig : SortConfig) (a b : Booking) : Z :=
  let aValue := sortValue sortConfig a in
  let bValue := sortValue sortConfig b in
  if keyLt aValue bValue then
    match direction sortConfig with Asc => -1 | Desc => 1 end
  else if keyLt bValue aValue then
    match direction sortConfig with Asc => 1 | Desc => -1 end
  else 0.

(** [Array.prototype.sort(cmp)] is a stable sort: elements are ordered by
    [cmp] and elements that compare equal keep their order.  Each element
    is inserted before the first later element it does not follow. *)
Fixpoint insertBy (cmp : Booking -> Booking -> Z) (x : Booking) (l : list Booking)
  : list Booking :=
  match l with
  | [] => [x]
  | y :: l' => if (cmp x y <=? 0)%Z then x :: l else y :: insertBy cmp x l'
  end.
Definition arraySort (cmp : Booking -> Booking -> Z) (l : list Booking) : list Booking :=
  foldr (insertBy cmp) [] l.

(** The array [sortedBookings] denotes. *)
Definition sortArray (filtered : list Booking) (sortConfig : SortConfig) : list Booking :=
  arraySort (compareBookings sortConfig) filtered.

(** [sortedBookings]: [[...filteredBookings]] copies the array, and
    [sorted.sort] then sorts the copy in place. *)
Definition sortedBookings (filtered : Ref) (sortConfig : SortConfig) (h : Heap)
  : option (Ref * Heap) :=
  match h !! filtered with
  | Some arr =>
      let '(sorted, h1) := allocArray arr h in
      Some (sorted, alter (arraySort (compareBookings sortConfig)) sorted h1)
  | None => None
  end.

End Table.

(* ===================================================================== *)
(** ** The specification's vocabulary                                     *)
(* ===================================================================== *)

Module Spec.
Import JsString Validation.
Export Table.

(** "stripping all non-digit characters from the value" *)
Definition stripNonDigits (s : string) : list ascii := List.filter isDigit (chars s).

(** "[t] is a substring of [s]" *)
Definition Substring (t s : string) : Prop :=
  exists pre post : list ascii, chars s = (pre ++ chars t ++ post)%list.

Definition nonSpace (c : ascii) : bool := negb (isWhiteSpace c).

(** The e-mail pattern in the specification's words: one or more
    characters neither whitespace nor '@', then '@', then one or more such
    characters, then '.', then one or more non-whitespace characters. *)
Definition spec_email_pattern (s : list ascii) : Prop :=
  exists l d t : list ascii,
    s = (l ++ ["@"%char] ++ d ++ ["."%char] ++ t)%list /\
    l <> [] /\ d <> [] /\ t <> [] /\
    forallb Validation.notSpaceAt l = true /\
    forallb Validation.notSpaceAt d = true /\
    forallb nonSpace t = true.

(** The same pattern with '@' excluded from the last part as well. *)
Definition email_pattern (s : list ascii) : Prop :=
  exists l d t : list ascii,
    s = (l ++ ["@"%char] ++ d ++ ["."%char] ++ t)%list /\
    l <> [] /\ d <> [] /\ t <> [] /\
    forallb Validation.notSpaceAt l = true /\
    forallb Validation.notSpaceAt d = true /\
    forallb Validation.notSpaceAt t = true.

(** The validator's rules in the specification's words, on the fields of
    a create request. *)
Definition rule_name (v : option string) : bool :=
  match v with
  | Some s => Nat.leb 2 (len (trim s)) && Nat.leb (len (trim s)) 100
  | None => false
  end.
Definition rule_email (v : option string) : bool :=
  match v with
  | Some s => Validation.validateEmail (trim s)
  | None => false
  end.
Definition rule_phone (v : option string) : bool :=
  match v with
  | Some s => Nat.eqb (List.length (stripNonDigits s)) 10
  | None => false
  end.
Definition rule_present (v : option string) : bool := truthy v.

Definition full_validator (body : Body) : bool :=
  rule_name (b_name body) && rule_email (b_email body) && rule_phone (b_phone body) &&
  rule_present (b_date body) && rule_present (b_timeSlot body).

(** What the schema and the route check. *)
Definition server_phone (v : option string) : bool :=
  match v with
  | Some s => Nat.leb 10 (len (trim s))
  | None => false
  end.
Definition server_validator (body : Body) : bool :=
  rule_name (b_name body) && rule_email (b_email body) && server_phone (b_phone body) &&
  rule_present (b_date body) && rule_present (b_timeSlot body).

(** The answer of a successful create. *)
Definition createdResponse (savedBooking : Booking) : Response :=
  {| status := 201; success := true;
     message := Some "Booking created successfully";
     count := None; data := Doc savedBooking |}.

(** The document a create request stores. *)
Definition documentOf (now : Z) (body : Body) (st : State) : Booking :=
  {| _id := oidCounter st;
     name := trim (Server.the (b_name body));
     email := trim (toLowerCase (Server.the (b_email body)));
     phone := trim (Server.the (b_phone body));
     date := Server.the (b_date body);
     timeSlot := Server.the (b_timeSlot body);
     createdAt := now |}.

(** The server state is well formed when the identifiers in use were
    drawn from the generator. *)
Definition wf (st : State) : Prop :=
  Forall (fun d => (_id d < oidCounter st)%N) (db st).

(** "ordered by creation time, most recent first" *)
Definition newestFirst (l : list Booking) : Prop :=
  forall i j a b, (i < j)%nat -> l !! i = Some a -> l !! j = Some b ->
                  (createdAt b <= createdAt a)%Z.

(** Every element is followed only by elements that are not more recent. *)
Inductive Descending : list Booking -> Prop :=
| Descending_nil : Descending []
| Descending_cons x l :
    Forall (fun b => (createdAt b <= createdAt x)%Z) l -> Descending l ->
    Descending (x :: l).

(** "sorted ascending by (lowercased) name": no element is followed by
    one with a smaller key. *)
Definition nameKey (b : Booking) : string := toLowerCase (name b).
Fixpoint nameAscending (l : list Booking) : Prop :=
  match l with
  | a :: l' =>
      match l' with
      | b :: _ => lt (nameKey b) (nameKey a) = false /\ nameAscending l'
      | [] => True
      end
  | [] => True
  end.

Definition nameAsc : SortConfig := {| field := FName; direction := Asc |}.

(** The message each rule of the form validator yields, from the value
    of its own field alone. *)
Definition nameError (v : option string) : option string :=
  if negb (validateRequired v) then Some "Name is required"
  else if Nat.ltb (len (trim (Validation.the v))) 2
       then Some "Name must be at least 2 characters"
       else None.
Definition emailError (v : option string) : option string :=
  if negb (validateRequired v) then Some "Email is required"
  else if negb (validateEmail (Validation.the v))
       then Some "Please enter a valid email address"
       else None.
Definition phoneError (v : option string) : option string :=
  if negb (validateRequired v) then Some "Phone number is required"
  else if negb (validatePhone (Validation.the v))
       then Some "Please enter exactly 10 digits"
       else None.
Definition dateError (v : option string) : option string :=
  if negb (validateRequired v) then Some "Please select a date" else None.
Definition timeSlotError (v : option string) : option string :=
  if negb (validateRequired v) then Some "Please select a time slot" else None.

(** The failing fields and their messages, field by field. *)
Definition fieldError (formData : FormData) (k : string) : option string :=
  if String.eqb k "name" then nameError (fd_name formData)
  else if String.eqb k "email" then emailError (fd_email formData)
  else if String.eqb k "phone" then phoneError (fd_phone formData)
  else if String.eqb k "date" then dateError (fd_date formData)
  else if String.eqb k "timeSlot" then timeSlotError (fd_timeSlot formData)
  else None.

(** [errors.k = msg] when the rule of [k] fails. *)
Definition recordError (k : string) (e : option string) (errors : gmap string string)
  : gmap string string :=
  match e with
  | Some msg => <[k := msg]> errors
  | None => errors
  end.

(** The header row and the data row of the report, column by column. *)
Definition headerRow : list Cell :=
  [CStr "S.No"; CStr "Name"; CStr "Email"; CStr "Phone"; CStr "Date";
   CStr "Time Slot"; CStr "Booked On"].
Definition dataRow (fmt : Z -> string) (index : nat) (b : Booking) : list Cell :=
  [CNum (index + 1); CStr (name b); CStr (email b); CStr (phone b); CStr (date b);
   CStr (timeSlot b); CStr (fmt (createdAt b))].

(** "the lowercased term is a substring of the lowercased name, email,
    date, or timeSlot, or the term is a substring of the phone field" *)
Definition Matches (term : string) (b : Booking) : Prop :=
  Substring (toLowerCase term) (toLowerCase (name b)) \/
  Substring (toLowerCase term) (toLowerCase (email b)) \/
  Substring term (phone b) \/
  Substring (toLowerCase term) (toLowerCase (date b)) \/
  Substring (toLowerCase term) (toLowerCase (timeSlot b)).

(** The records that share a name key, in the order they have in [l]. *)
Definition withNameKey (k : string) (l : list Booking) : list Booking :=
  List.filter (fun b => String.eqb (nameKey b) k) l.

(** The answers of the delete route. *)
Definition notFound : Response := failure 404 "Booking not found".
Definition serverError : Response := failure 500 "Server error. Please try again later.".
Definition deleted : Response :=
  {| status := 200; success := true; message := Some "Booking deleted successfully";
     count := None; data := NoData |}.

End Spec.

(** ** Sample data *)

Module Examples.
Import Validation Spec.

Definition emptyState : State := {| db := []; oidCounter := 0 |}.

Definition johnDoe : Body :=
  {| b_name := Some "John Doe"; b_email := Some "john@example.com";
     b_phone := Some "9876543210"; b_date := Some "February 15, 2026";
     b_timeSlot := Some "10:00 AM - 11:00 AM" |}.

(** The same request with twelve digits for a phone number. *)
Definition twelveDigits : Body :=
  {| b_name := Some "John Doe"; b_email := Some "john@example.com";
     b_phone := Some "987654321012"; b_date := Some "February 15, 2026";
     b_timeSlot := Some "10:00 AM - 11:00 AM" |}.

(** The same request without an e-mail address. *)
Definition noEmail : Body :=
  {| b_name := Some "John Doe"; b_email := None;
     b_phone := Some "9876543210"; b_date := Some "February 15, 2026";
     b_timeSlot := Some "10:00 AM - 11:00 AM" |}.

(** A form with every field valid but the e-mail address left empty. *)
Definition noEmailForm : FormData :=
  {| fd_name := Some "John Doe"; fd_email := Some "";
     fd_phone := Some "9876543210"; fd_date := Some "February 15, 2026";
     fd_timeSlot := Some "10:00 AM - 11:00 AM" |}.

Definition booking (i : N) (nm : string) (t : Z) : Booking :=
  {| _id := i; name := nm; email := "john@example.com"; phone := "9876543210";
     date := "February 15, 2026"; timeSlot := "10:00 AM - 11:00 AM"; createdAt := t |}.

(** Two bookings already in name order, and an array holding them. *)
Definition alice : Booking := booking 1 "alice" 1771137000000.
Definition bob : Booking := booking 2 "Bob" 1771137060000.
Definition tableHeap : gmap nat (list Booking) := {[ 0%nat := [alice; bob] ]}.

(** A server holding the two bookings. *)
Definition twoBookings : State := {| db := [alice; bob]; oidCounter := 3 |}.

End Examples.

(* ===================================================================== *)
(** ** server/routes/bookings.js: clearing the collection                 *)
(* ===================================================================== *)

Module Routes.
Import JsString.
Export Spec.

(** A non-negative integer in a template literal: its decimal digits. *)
Definition digitChar (d : nat) : ascii := ascii_of_nat (48 + d).

Fixpoint decimalDigits (fuel n : nat) (acc : list ascii) : list ascii :=
  match fuel with
  | O => acc
  | S fuel' =>
      let acc' := digitChar (n mod 10) :: acc in
      if Nat.eqb (n / 10) 0 then acc' else decimalDigits fuel' (n / 10) acc'
  end.

Definition numberToString (n : nat) : string := str (decimalDigits (S n) n []).

(** [Booking.deleteMany({})]: every document goes; the result carries their
    number. *)
Definition deleteMany (st : State) : nat * State :=
  (List.length (db st), {| db := []; oidCounter := oidCounter st |}).

(** [router.delete('/')] *)
Definition deleteAll (st : State) : Response * State :=
  let '(deletedCount, st') := deleteMany st in
  ({| status := 200; success := true;
      message := Some (numberToString deletedCount ++ " bookings deleted successfully");
      count := None; data := NoData |}, st').

End Routes.

(* ===================================================================== *)
(** ** client/src/utils/validation.js: the offered dates and time slots   *)
(* ===================================================================== *)

Module Offers.
Import JsString Routes.

(** [for (let day = lo; day <= hi; day++) dates.push(`February ${day}, 2026`)],
    with [n] iterations left. *)
Fixpoint pushDates (n day : nat) (dates : list string) : list string :=
  match n with
  | O => dates
  | S n' => pushDates n' (S day) (dates ++ ["February " ++ numberToString day ++ ", 2026"])
  end.

Definition getFebruaryDates : list string := pushDates 28 1 [].

Definition getTimeSlots : list string :=
  [ "10:00 AM - 11:00 AM"; "11:00 AM - 12:00 PM"; "12:00 PM - 1:00 PM";
    "1:00 PM - 2:00 PM"; "2:00 PM - 3:00 PM"; "3:00 PM - 4:00 PM";
    "4:00 PM - 5:00 PM"; "5:00 PM - 6:00 PM" ].

End Offers.

(* ===================================================================== *)
(** ** client/src/components/BookingForm.jsx                              *)
(* ===================================================================== *)

Module Form.
Import JsString Validation.
Export Routes.

(** The state of the component the handlers read and write. *)
Record FormState : Type := {
  formData : FormData;
  errors : gmap string string
}.

(** [{ ...prev, [name]: value }] on the five fields of the form; a key that
    names no field adds a property no rule reads. *)
Definition setField (k : string) (value : string) (prev : FormData) : FormData :=
  if String.eqb k "name" then
    {| fd_name := Some value; fd_email := fd_email prev; fd_phone := fd_phone prev;
       fd_date := fd_date prev; fd_timeSlot := fd_timeSlot prev |}
  else if String.eqb k "email" then
    {| fd_name := fd_name prev; fd_email := Some value; fd_phone := fd_phone prev;
       fd_date := fd_date prev; fd_timeSlot := fd_timeSlot prev |}
  else if String.eqb k "phone" then
    {| fd_name := fd_name prev; fd_email := fd_email prev; fd_phone := Some value;
       fd_date := fd_date prev; fd_timeSlot := fd_timeSlot prev |}
  else if String.eqb k "date" then
    {| fd_name := fd_name prev; fd_email := fd_email prev; fd_phone := fd_phone prev;
       fd_date := Some value; fd_timeSlot := fd_timeSlot prev |}
  else if String.eqb k "timeSlot" then
    {| fd_name := fd_name prev; fd_email := fd_email prev; fd_phone := fd_phone prev;
       fd_date := fd_date prev; fd_timeSlot := Some value |}
  else prev.

(** [formData[k]] *)
Definition getField (k : string) (fd : FormData) : option string :=
  if String.eqb k "name" then fd_name fd
  else if String.eqb k "email" then fd_email fd
  else if String.eqb k "phone" then fd_phone fd
  else if String.eqb k "date" then fd_date fd
  else if String.eqb k "timeSlot" then fd_timeSlot fd
  else None.

(** [handleChange]: store the value; an error shown for the field is
    replaced by the empty string. *)
Definition handleChange (k value : string) (s : FormState) : FormState :=
  {| formData := setField k value (formData s);
     errors := if truthy (errors s !! k) then <[k := ""]> (errors s) else errors s |}.

(** [handleBlur]: validate the whole form, keep the message of the field
    that was left, if it has one. *)
Definition handleBlur (k : string) (s : FormState) : FormState :=
  let fieldErrors := validateBookingForm (formData s) in
  if truthy (fieldErrors !! k)
  then {| formData := formData s; errors := <[k := Validation.the (fieldErrors !! k)]> (errors s) |}
  else s.

(** [errors.k && <p>{errors.k}</p>]: the message shown under a field. *)
Definition shownError (k : string) (s : FormState) : option string :=
  if truthy (errors s !! k) then errors s !! k else None.

(** The JSON body [api.post('/api/bookings', formData)] sends. *)
Definition bodyOf (fd : FormData) : Body :=
  {| b_name := fd_name fd; b_email := fd_email fd; b_phone := fd_phone fd;
     b_date := fd_date fd; b_timeSlot := fd_timeSlot fd |}.

Definition emptyForm : FormData :=
  {| fd_name := Some ""; fd_email := Some ""; fd_phone := Some "";
     fd_date := Some ""; fd_timeSlot := Some "" |}.

(** [error.response?.data?.message || 'Something went wrong. Please try again.'] *)
Definition messageOr (r : Response) : string :=
  if truthy (message r) then Validation.the (message r)
  else "Something went wrong. Please try again.".

(** [handleSubmit] against the server: the form is checked first, and only
    a form without errors is posted; the HTTP client resolves on a 2xx
    status and rejects otherwise. *)
Definition handleSubmit (now : Z) (s : FormState) (srv : State) : FormState * State :=
  let formErrors := validateBookingForm (formData s) in
  if Nat.ltb 0 (size formErrors) then
    ({| formData := formData s; errors := formErrors |}, srv)
  else
    let '(response, srv') := create now (bodyOf (formData s)) srv in
    if (200 <=? status response)%Z && (status response <? 300)%Z then
      if success response
      then ({| formData := emptyForm; errors := ∅ |}, srv')
      else (s, srv')
    else
      ({| formData := formData s; errors := {[ "submit" := messageOr response ]} |}, srv').

End Form.

(* ===================================================================== *)
(** ** AdminLogin.jsx, AdminPage.jsx, AdminDashboard.jsx: the session flag *)
(* ===================================================================== *)

Module Admin.
Import JsString.

Definition ADMIN_USERNAME : string := "admin".
Definition ADMIN_PASSWORD : string := "admin123".

(** The admin page: [sessionStorage], the [isLoggedIn] state of AdminPage
    and the [error] state of AdminLogin. *)
Record Page : Type := {
  sessionStorage : gmap string string;
  isLoggedIn : bool;
  loginError : string
}.

Inductive Event : Type :=
| Mount                                   (* the effect of AdminPage *)
| SubmitLogin (username password : string) (* AdminLogin.handleSubmit *)
| Logout.                                  (* AdminDashboard.handleLogout *)

(** [sessionStorage.getItem('isAdminLoggedIn') === 'true'] *)
Definition storedFlag (storage : gmap string string) : bool :=
  match storage !! "isAdminLoggedIn" with
  | Some v => String.eqb v "true"
  | None => false
  end.

Definition step (p : Page) (e : Event) : Page :=
  match e with
  | Mount =>
      {| sessionStorage := sessionStorage p;
         isLoggedIn := storedFlag (sessionStorage p);
         loginError := loginError p |}
  | SubmitLogin username password =>
      if String.eqb username ADMIN_USERNAME && String.eqb password ADMIN_PASSWORD
      then {| sessionStorage := <["isAdminLoggedIn" := "true"]> (sessionStorage p);
              isLoggedIn := true;
              loginError := "" |}
      else {| sessionStorage := sessionStorage p;
              isLoggedIn := isLoggedIn p;
              loginError := "Invalid username or password" |}
  | Logout =>
      (* AdminLogin is mounted anew, its error state empty *)
      {| sessionStorage := delete "isAdminLoggedIn" (sessionStorage p);
         isLoggedIn := false;
         loginError := "" |}
  end.

Definition run (p : Page) (events : list Event) : Page := fold_left step events p.

(** A page as it is first rendered over some session storage. *)
Definition initial (storage : gmap string string) : Page :=
  {| sessionStorage := storage; isLoggedIn := false; loginError := "" |}.

End Admin.

(* ===================================================================== *)
(** ** server/server.js: the CORS origin check                            *)
(* ===================================================================== *)

Module Cors.
Import JsString.

(** [[..., process.env.FRONTEND_URL].filter(Boolean)]; the variable is a
    string or is not set. *)
Definition allowedOrigins (FRONTEND_URL : option string) : list string :=
  omap (fun o : option string => if truthy o then o else None)
       [Some "http://localhost:5173"; Some "http://localhost:3000"; FRONTEND_URL].

Inductive Verdict : Type :=
| Allowed                  (* callback(null, true) *)
| Refused (err : string).  (* callback(new Error(err)) *)

(** The [origin] function given to [cors]; [allowedOrigins.indexOf(origin)
    !== -1] is membership under strict equality. *)
Definition checkOrigin (FRONTEND_URL origin : option string) : Verdict :=
  if negb (truthy origin) then Allowed
  else if existsb (String.eqb (default "" origin)) (allowedOrigins FRONTEND_URL)
       then Allowed
       else Refused "Not allowed by CORS".

End Cors.

(* ===================================================================== *)
(** ** BookingsTable.jsx: what the table renders                          *)
(* ===================================================================== *)

Module View.
Import JsString.
Export Routes.

(** The two things the component returns: the empty state with its title,
    or the count label and the rows, each with its serial number. *)
Inductive Rendered : Type :=
| EmptyState (title : string)
| Rows (countLabel : string) (rows : list (nat * Booking)).

Definition render (bookings : list Booking) (searchTerm : string) (sortConfig : SortConfig)
  : Rendered :=
  let sortedBookings := sortArray (filterArray bookings searchTerm) sortConfig in
  if Nat.eqb (List.length sortedBookings) 0 then
    EmptyState (if truthy (Some searchTerm) then "No bookings found" else "No bookings yet")
  else
    Rows (numberToString (List.length sortedBookings) ++ " record" ++
          (if negb (Nat.eqb (List.length sortedBookings) 1) then "s" else ""))
         (imap (fun index booking => ((index + 1)%nat, booking)) sortedBookings).

End View.

(* ===================================================================== *)
(** ** Vocabulary of the further properties                               *)
(* ===================================================================== *)

Module Props.
Import JsString Validation.
Export Form.
Export View.

(** A stored document the schema accepts as it stands. *)
Definition schemaValid (d : Booking) : Prop := validationMessages d = [].

(** The store's invariant: identifiers drawn from the generator, no
    identifier twice, every document valid. *)
Definition storeOk (st : State) : Prop :=
  wf st /\ NoDup (map _id (db st)) /\ Forall schemaValid (db st).

(** The envelope of an answer is coherent. *)
Definition envelopeOk (r : Response) : Prop :=
  (success r = true <-> (status r = 200 \/ status r = 201)%Z) /\
  (success r = false ->
     (status r = 400 \/ status r = 404 \/ status r = 500)%Z /\
     data r = NoData /\ exists m, message r = Some m /\ m <> "").

(** A list ordered by a comparator: no element is followed by one that
    must come before it. *)
Fixpoint orderedBy (cmp : Booking -> Booking -> Z) (l : list Booking) : Prop :=
  match l with
  | a :: l' =>
      match l' with
      | b :: _ => (cmp a b <= 0)%Z /\ orderedBy cmp l'
      | [] => True
      end
  | [] => True
  end.

(** The sort the table starts with. *)
Definition newestFirstConfig : SortConfig := {| field := FCreatedAt; direction := Desc |}.

(** The number a string of decimal digits denotes. *)
Definition decimalValue (s : string) : nat :=
  fold_left (fun v c => 10 * v + (nat_of_ascii c - 48)) (chars s) 0.

(** The label the loop of [getFebruaryDates] pushes for a day. *)
Definition februaryLabel (day : nat) : string :=
  "February " ++ numberToString day ++ ", 2026".

(** "some character of the value is not whitespace" *)
Definition hasVisibleChar (s : string) : Prop :=
  exists c : ascii, In c (chars s) /\ isWhiteSpace c = false.

End Props.

(** ** More sample data *)

Module Samples.
Import Validation Props.

(** A valid form. *)
Definition johnForm : FormData :=
  {| fd_name := Some "John Doe"; fd_email := Some "john@example.com";
     fd_phone := Some "987-654-3210"; fd_date := Some "2026-02-15";
     fd_timeSlot := Some "10:00 AM - 11:00 AM" |}.

Definition freshForm : FormState := {| formData := Form.emptyForm; errors := ∅ |}.

(** The same form under a name of 101 letters. *)
Definition longNameForm : FormData :=
  {| fd_name := Some (JsString.str (repeat "a"%char 101));
     fd_email := Some "john@example.com";
     fd_phone := Some "987-654-3210"; fd_date := Some "2026-02-15";
     fd_timeSlot := Some "10:00 AM - 11:00 AM" |}.

End Samples.

Import JsString Regex Validation Spec Props.

(* ===================================================================== *)
(** * Properties                                                          *)
(* ===================================================================== *)

(** ** Strings *)

Lemma chars_str (l : list ascii) : chars (str l) = l.
Proof. apply list_ascii_of_string_of_list_ascii. Qed.

Lemma str_chars (s : string) : str (chars s) = s.
Proof. apply string_of_list_ascii_of_string. Qed.



Lemma eqb_empty_len (s : string) : String.eqb s "" = Nat.eqb (len s) 0.
Proof. destruct s; reflexivity. Qed.

(** ** The matcher computes the language of the pattern *)

Section RegexFacts.

Lemma matches_nil_nullable (r : regex) : matches r [] <-> nullable r = true.
Proof.
  split.
  - induction r; intros H; inversion H; subst; simpl; auto.
    + destruct (app_eq_nil _ _ H2) as [-> ->].
      rewrite IHr1, IHr2; auto.
    + rewrite IHr1; auto.
    + rewrite IHr2; auto with bool.
  - induction r; simpl; intros H; try discriminate.
    + constructor.
    + apply andb_true_iff in H as [H1 H2].
      apply (MCat r1 r2 [] []); auto.
    + apply orb_true_iff in H as [H | H]; [apply MAltL | apply MAltR]; auto.
    + constructor.
Qed.

Lemma matches_cat (r1 r2 : regex) (s : list ascii) :
  matches (Cat r1 r2) s <->
  exists s1 s2, s = (s1 ++ s2)%list /\ matches r1 s1 /\ matches r2 s2.
Proof.
  split.
  - intros H. inversion H; subst. eauto.
  - intros (s1 & s2 & -> & H1 & H2). now constructor.
Qed.

Lemma matches_class (p : ascii -> bool) (s : list ascii) :
  matches (Class p) s <-> exists c, s = [c] /\ p c = true.
Proof.
  split.
  - intros H. inversion H; subst. eauto.
  - intros (c & -> & H). now constructor.
Qed.

Lemma matches_alt (r1 r2 : regex) (s : list ascii) :
  matches (Alt r1 r2) s <-> matches r1 s \/ matches r2 s.
Proof.
  split.
  - intros H. inversion H; subst; auto.
  - intros [H | H]; [apply MAltL | apply MAltR]; exact H.
Qed.

Lemma star_cons_inv (r : regex) (c : ascii) (s : list ascii) :
  matches (Star r) (c :: s) ->
  exists s1 s2, s = (s1 ++ s2)%list /\ matches r (c :: s1) /\ matches (Star r) s2.
Proof.
  intros H. remember (Star r) as r' eqn:Er. remember (c :: s) as w eqn:Ew.
  revert s Ew. induction H; intros s0 Ew; try discriminate.
  injection Er as ->.
  destruct s1 as [| a s1'].
  - simpl in Ew. now apply IHmatches2.
  - simpl in Ew. injection Ew as -> <-. eauto.
Qed.

Lemma deriv_matches (c : ascii) (r : regex) (s : list ascii) :
  matches (deriv c r) s <-> matches r (c :: s).
Proof.
  revert s. induction r as [| | p | r1 IH1 r2 IH2 | r1 IH1 r2 IH2 | r IH]; intros s; simpl.
  - split; intros H; inversion H.
  - split; intros H; inversion H.
  - split; intros H.
    + destruct (p c) eqn:E; inversion H; subst. now constructor.
    + apply matches_class in H as (x & E & Hx).
      injection E as <- ->. rewrite Hx. constructor.
  - split; intros H.
    + destruct (nullable r1) eqn:E.
      * apply matches_alt in H as [H | H].
        -- apply matches_cat in H as (s1 & s2 & -> & H1 & H2).
           apply IH1 in H1. now apply (MCat r1 r2 (c :: s1) s2).
        -- apply IH2 in H. apply (MCat r1 r2 [] (c :: s)); auto.
           now apply matches_nil_nullable.
      * apply matches_cat in H as (s1 & s2 & -> & H1 & H2).
        apply IH1 in H1. now apply (MCat r1 r2 (c :: s1) s2).
    + apply matches_cat in H as (s1 & s2 & E & H1 & H2).
      destruct s1 as [| a s1'].
      * simpl in E. subst s2.
        apply matches_nil_nullable in H1. rewrite H1.
        apply MAltR. now apply IH2.
      * simpl in E. injection E as -> ->.
        apply IH1 in H1.
        destruct (nullable r1); [apply MAltL |]; now constructor.
  - rewrite !matches_alt, IH1, IH2. reflexivity.
  - split; intros H.
    + apply matches_cat in H as (s1 & s2 & -> & H1 & H2).
      apply IH in H1. now apply (MStarApp r (c :: s1) s2).
    + apply star_cons_inv in H as (s1 & s2 & -> & H1 & H2).
      constructor; auto. now apply IH.
Qed.

Lemma fullMatch_matches (r : regex) (s : list ascii) :
  fullMatch r s = true <-> matches r s.
Proof.
  revert r. induction s as [| c s IH]; intros r; simpl.
  - symmetry. apply matches_nil_nullable.
  - rewrite IH. apply deriv_matches.
Qed.

Lemma matches_lit (c : ascii) (s : list ascii) : matches (Lit c) s <-> s = [c].
Proof.
  unfold Lit. rewrite matches_class. split.
  - intros (x & -> & H). destruct (ascii_dec x c); congruence.
  - intros ->. exists c. split; auto. destruct (ascii_dec c c); congruence.
Qed.

Lemma matches_star_class (p : ascii -> bool) (s : list ascii) :
  matches (Star (Class p)) s <-> forallb p s = true.
Proof.
  split.
  - intros H. remember (Star (Class p)) as r eqn:Er.
    induction H; try discriminate; auto.
    injection Er as ->.
    apply matches_class in H as (c & -> & Hc). simpl.
    rewrite Hc. simpl. now apply IHmatches2.
  - induction s as [| c s IH]; simpl; intros H.
    + constructor.
    + apply andb_true_iff in H as [Hc Hs].
      apply (MStarApp (Class p) [c] s); auto. now constructor.
Qed.

Lemma matches_plus_class (p : ascii -> bool) (s : list ascii) :
  matches (Plus (Class p)) s <-> s <> [] /\ forallb p s = true.
Proof.
  unfold Plus. rewrite matches_cat. split.
  - intros (s1 & s2 & -> & H1 & H2).
    apply matches_class in H1 as (c & -> & Hc).
    apply matches_star_class in H2. simpl. rewrite Hc, H2. split; [discriminate | reflexivity].
  - intros [Hne H]. destruct s as [| c s]; [congruence |].
    simpl in H. apply andb_true_iff in H as [Hc Hs].
    exists [c], s. repeat split; auto.
    + apply matches_class. eauto.
    + now apply matches_star_class.
Qed.

End RegexFacts.

(** ** The e-mail pattern *)

Lemma emailRegex_pattern (s : list ascii) : matches emailRegex s <-> email_pattern s.
Proof.
  unfold emailRegex, email_pattern. split.
  - intros H.
    apply matches_cat in H as (l & s1 & -> & Hl & H).
    apply matches_cat in H as (a & s2 & -> & Ha & H).
    apply matches_cat in H as (d & s3 & -> & Hd & H).
    apply matches_cat in H as (b & t & -> & Hb & Ht).
    apply matches_lit in Ha as ->. apply matches_lit in Hb as ->.
    apply matches_plus_class in Hl as [? ?].
    apply matches_plus_class in Hd as [? ?].
    apply matches_plus_class in Ht as [? ?].
    exists l, d, t. repeat split; auto.
  - intros (l & d & t & -> & Hl & Hd & Ht & Fl & Fd & Ft).
    repeat (apply MCat);
      try (apply matches_lit; reflexivity);
      apply matches_plus_class; auto.
Qed.

Lemma validateEmail_pattern (email : string) :
  validateEmail email = true <-> email_pattern (chars email).
Proof.
  unfold validateEmail, test_anchored. rewrite fullMatch_matches. apply emailRegex_pattern.
Qed.

(** ** Phone numbers *)

Lemma replaceAllClass_nonDigit (l : list ascii) :
  replaceAllClass isNonDigit l = List.filter isDigit l.
Proof.
  induction l as [| c l IH]; simpl; auto.
  unfold isNonDigit at 1. destruct (isDigit c); simpl; now rewrite IH.
Qed.

Lemma filter_isDigit_idem (l : list ascii) :
  List.filter isDigit (List.filter isDigit l) = List.filter isDigit l.
Proof.
  induction l as [| c l IH]; simpl; auto.
  destruct (isDigit c) eqn:E; simpl; rewrite ?E, IH; reflexivity.
Qed.

(** C2.  [validatePhone] passes exactly when stripping the non-digit
    characters leaves a string of length 10; the verdict depends on the
    digits alone, whatever formatting characters surround them; so
    "987-654-3210" passes while "98765432" and "987654321012" fail. *)
Theorem validatePhone_exactly_ten_digits :
  (forall phone : string,
      validatePhone phone = true <-> List.length (stripNonDigits phone) = 10%nat) /\
  (forall phone : string,
      validatePhone phone = validatePhone (str (stripNonDigits phone))) /\
  validatePhone "987-654-3210" = true /\
  validatePhone "98765432" = false /\
  validatePhone "987654321012" = false.
Proof.
  split; [| split; [| repeat split]].
  - intros phone. unfold validatePhone, stripNonDigits.
    rewrite replaceAllClass_nonDigit. apply Nat.eqb_eq.
  - intros phone. unfold validatePhone, stripNonDigits.
    rewrite !replaceAllClass_nonDigit, chars_str, filter_isDigit_idem. reflexivity.
Qed.

(** ** E-mail addresses *)

Lemma notSpaceAt_not_at (l : list ascii) :
  forallb notSpaceAt l = true -> ~ In "@"%char l.
Proof.
  induction l as [| c l IH]; simpl; auto.
  intros H [-> | Hin]; apply andb_true_iff in H as [Hc Hl].
  - discriminate Hc.
  - now apply IH.
Qed.

Lemma split_at_first (x : ascii) (l r pre post : list ascii) :
  ~ In x l -> (l ++ x :: r = pre ++ x :: post)%list ->
  (pre = l /\ post = r) \/ (exists mid, r = (mid ++ x :: post)%list).
Proof.
  revert pre. induction l as [| a l IH]; intros pre Hnin E.
  - destruct pre as [| p pre']; simpl in E.
    + injection E as ->. now left.
    + injection E as _ ->. right. eauto.
  - destruct pre as [| p pre']; simpl in E.
    + injection E as <- _. exfalso. apply Hnin. now left.
    + injection E as <- E.
      destruct (IH pre') as [[-> ->] | Hr]; auto.
      intros Hin. apply Hnin. now right.
Qed.

Lemma email_pattern_has_at (s : list ascii) : email_pattern s -> In "@"%char s.
Proof.
  intros (l & d & t & -> & _). apply in_or_app. right. now left.
Qed.

Lemma email_pattern_dot_after_at (s pre post : list ascii) :
  email_pattern s -> s = (pre ++ "@"%char :: post)%list -> In "."%char post.
Proof.
  intros (l & d & t & -> & _ & _ & _ & Fl & Fd & Ft) E. simpl in E.
  destruct (split_at_first "@" l (d ++ "."%char :: t) pre post) as [[_ ->] | [mid Hr]]; auto.
  - now apply notSpaceAt_not_at.
  - apply in_or_app. right. now left.
  - exfalso.
    assert (Hin : In "@"%char (d ++ "."%char :: t)%list).
    { rewrite Hr. apply in_or_app. right. now left. }
    apply in_app_or in Hin as [Hin | [Hin | Hin]].
    + now apply (notSpaceAt_not_at d).
    + discriminate Hin.
    + now apply (notSpaceAt_not_at t).
Qed.

(** Lowercasing keeps the class of every character of the pattern. *)
Lemma isWhiteSpace_lowerChar (c : ascii) : isWhiteSpace (lowerChar c) = isWhiteSpace c.
Proof. destruct c as [[] [] [] [] [] [] [] []]; reflexivity. Qed.

Lemma notSpaceAt_lowerChar (c : ascii) : notSpaceAt (lowerChar c) = notSpaceAt c.
Proof. destruct c as [[] [] [] [] [] [] [] []]; reflexivity. Qed.

Lemma lowerChar_at (c : ascii) : lowerChar c = "@"%char -> c = "@"%char.
Proof. destruct c as [[] [] [] [] [] [] [] []]; vm_compute; congruence. Qed.

Lemma lowerChar_dot (c : ascii) : lowerChar c = "."%char -> c = "."%char.
Proof. destruct c as [[] [] [] [] [] [] [] []]; vm_compute; congruence. Qed.

Lemma forallb_notSpaceAt_lower (l : list ascii) :
  forallb notSpaceAt (map lowerChar l) = forallb notSpaceAt l.
Proof.
  induction l as [| c l IH]; simpl; auto. now rewrite notSpaceAt_lowerChar, IH.
Qed.

Lemma email_pattern_lower (s : list ascii) :
  email_pattern (map lowerChar s) <-> email_pattern s.
Proof.
  split.
  - intros (l & d & t & E & Hl & Hd & Ht & Fl & Fd & Ft).
    apply map_eq_app in E as (l' & r1 & -> & <- & E).
    simpl in E. apply map_eq_cons in E as (a & r2 & -> & Ha & E).
    apply map_eq_app in E as (d' & r3 & -> & <- & E).
    apply map_eq_cons in E as (b & t' & -> & Hb & <-).
    apply lowerChar_at in Ha as ->. apply lowerChar_dot in Hb as ->.
    rewrite forallb_notSpaceAt_lower in Fl, Fd, Ft.
    exists l', d', t'. repeat split; auto; intros ->; auto.
  - intros (l & d & t & -> & Hl & Hd & Ht & Fl & Fd & Ft).
    exists (map lowerChar l), (map lowerChar d), (map lowerChar t).
    rewrite !forallb_notSpaceAt_lower.
    repeat split; auto.
    + now rewrite !map_app.
    + intros E. apply map_eq_nil in E. auto.
    + intros E. apply map_eq_nil in E. auto.
    + intros E. apply map_eq_nil in E. auto.
Qed.

Lemma trimStart_lower (l : list ascii) :
  trimStart (map lowerChar l) = map lowerChar (trimStart l).
Proof.
  induction l as [| c l IH]; simpl; auto.
  rewrite isWhiteSpace_lowerChar. destruct (isWhiteSpace c); auto.
Qed.

Lemma trimChars_lower (l : list ascii) :
  trimChars (map lowerChar l) = map lowerChar (trimChars l).
Proof.
  unfold trimChars, trimEnd.
  now rewrite trimStart_lower, <- map_rev, trimStart_lower, map_rev.
Qed.

Lemma chars_trim (s : string) : chars (trim s) = trimChars (chars s).
Proof. unfold trim. apply chars_str. Qed.

Lemma chars_toLowerCase (s : string) : chars (toLowerCase s) = map lowerChar (chars s).
Proof. unfold toLowerCase. apply chars_str. Qed.

Lemma email_pattern_nonempty (s : list ascii) : email_pattern s -> s <> [].
Proof. intros (l & d & t & -> & _). now destruct l. Qed.

Lemma validate_email_pattern (v : string) :
  validate_email v = None <-> email_pattern (chars v).
Proof.
  unfold validate_email, emailMatch. fold (validateEmail v).
  destruct (Nat.eqb (len v) 0) eqn:E0.
  - split; [discriminate |].
    intros H. apply email_pattern_nonempty in H.
    apply Nat.eqb_eq in E0. unfold len in E0. now destruct (chars v).
  - destruct (validateEmail v) eqn:E; simpl.
    + split; auto. intros _. now apply validateEmail_pattern.
    + split; [discriminate |].
      intros H. apply validateEmail_pattern in H. congruence.
Qed.

Lemma schema_email_pattern (v : string) :
  validate_email (set_email v) = None <-> email_pattern (chars (trim v)).
Proof.
  rewrite validate_email_pattern. unfold set_email.
  rewrite !chars_trim, chars_toLowerCase, trimChars_lower.
  apply email_pattern_lower.
Qed.

(** C3, as the code has it.  [validateEmail] passes exactly when the value
    it is given is: one or more characters neither whitespace nor '@', an
    '@', one or more such characters, a '.', and one or more characters
    again neither whitespace nor '@'.  The schema's [email] path applies
    the same pattern to the trimmed value.  A value without '@', or with no
    '.' after an '@', fails. *)
Theorem validateEmail_matches_pattern (email : string) :
  (validateEmail email = true <-> email_pattern (chars email)) /\
  (validate_email (set_email email) = None <-> email_pattern (chars (trim email))) /\
  (~ In "@"%char (chars email) -> validateEmail email = false) /\
  (forall pre post : list ascii,
      chars email = (pre ++ "@"%char :: post)%list -> ~ In "."%char post ->
      validateEmail email = false).
Proof.
  split; [apply validateEmail_pattern |].
  split; [apply schema_email_pattern |].
  split.
  - intros Hnin. destruct (validateEmail email) eqn:E; auto.
    apply validateEmail_pattern, email_pattern_has_at in E. contradiction.
  - intros pre post Hs Hnin. destruct (validateEmail email) eqn:E; auto.
    apply validateEmail_pattern in E.
    exfalso. apply Hnin. eapply email_pattern_dot_after_at; eauto.
Qed.

Lemma validateEmail_matches_pattern_witness :
  (~ In "@"%char (chars "john.example.com") /\ validateEmail "john.example.com" = false) /\
  (chars "john@examplecom" = (chars "john" ++ "@"%char :: chars "examplecom")%list /\
   ~ In "."%char (chars "examplecom") /\ validateEmail "john@examplecom" = false).
Proof.
  assert (H1 : ~ In "@"%char (chars "john.example.com")).
  { vm_compute. intuition discriminate. }
  assert (H2 : ~ In "."%char (chars "examplecom")).
  { vm_compute. intuition discriminate. }
  split.
  - split; [exact H1 |].
    exact (proj1 (proj2 (proj2 (validateEmail_matches_pattern "john.example.com"))) H1).
  - split; [reflexivity |]. split; [exact H2 |].
    exact (proj2 (proj2 (proj2 (validateEmail_matches_pattern "john@examplecom")))
             (chars "john") (chars "examplecom") eq_refl H2).
Defined.

(** C3 as worded fails on two kinds of input.  "a@b.c@d" is of the worded
    shape (its last part "c@d" has no whitespace) and is rejected.
    " a@b.co" is of the worded shape once trimmed, and [validateEmail],
    which tests the value as given, rejects it. *)
Lemma validateEmail_rejects_at_in_last_part :
  (spec_email_pattern (chars (trim "a@b.c@d")) /\ validateEmail "a@b.c@d" = false) /\
  (spec_email_pattern (chars (trim " a@b.co")) /\ validateEmail " a@b.co" = false).
Proof.
  split; split; try reflexivity.
  - exists (chars "a"), (chars "b"), (chars "c@d").
    vm_compute. repeat split; auto; discriminate.
  - exists (chars "a"), (chars "b"), (chars "co").
    vm_compute. repeat split; auto; discriminate.
Qed.

(** ** The whole-form validator *)

Lemma validateBookingForm_steps (formData : FormData) :
  validateBookingForm formData =
  recordError "timeSlot" (timeSlotError (fd_timeSlot formData))
    (recordError "date" (dateError (fd_date formData))
       (recordError "phone" (phoneError (fd_phone formData))
          (recordError "email" (emailError (fd_email formData))
             (recordError "name" (nameError (fd_name formData)) ∅)))).
Proof.
  unfold validateBookingForm, nameError, emailError, phoneError, dateError, timeSlotError.
  destruct (negb (validateRequired (fd_name formData)));
    [| destruct (Nat.ltb _ 2)];
    (destruct (negb (validateRequired (fd_email formData)));
     [| destruct (negb (validateEmail _))]);
    (destruct (negb (validateRequired (fd_phone formData)));
     [| destruct (negb (validatePhone _))]);
    destruct (negb (validateRequired (fd_date formData)));
    destruct (negb (validateRequired (fd_timeSlot formData)));
    reflexivity.
Qed.

Lemma lookup_recordError (k j : string) (e : option string) (errors : gmap string string) :
  recordError k e errors !! j =
  if String.eqb j k then (match e with Some m => Some m | None => errors !! j end)
  else errors !! j.
Proof.
  destruct (String.eqb_spec j k) as [-> | Hne]; destruct e; simpl; auto.
  - apply lookup_insert_eq.
  - apply lookup_insert_ne. congruence.
Qed.

(** C4.  [validateBookingForm] applies the five field rules one after the
    other, none depending on another's outcome: the entry of the result at
    a key is the message of that field's own rule, and there is no entry
    at any other key.  So when the e-mail address is missing and the four
    other fields are valid the result is exactly the entry for "email".
    Being a function of the form data, the validator has no effect. *)
Theorem validateBookingForm_reports_each_failing_field (formData : FormData) :
  (forall k : string, validateBookingForm formData !! k = fieldError formData k) /\
  (validateRequired (fd_email formData) = false ->
   nameError (fd_name formData) = None ->
   phoneError (fd_phone formData) = None ->
   dateError (fd_date formData) = None ->
   timeSlotError (fd_timeSlot formData) = None ->
   validateBookingForm formData = {[ "email" := "Email is required" ]} /\
   dom (validateBookingForm formData) = ({[ "email" ]} : gset string)).
Proof.
  split.
  - intros k. rewrite validateBookingForm_steps, !lookup_recordError, lookup_empty.
    unfold fieldError.
    generalize (nameError (fd_name formData)) (emailError (fd_email formData))
               (phoneError (fd_phone formData)) (dateError (fd_date formData))
               (timeSlotError (fd_timeSlot formData)).
    intros e1 e2 e3 e4 e5.
    destruct (String.eqb_spec k "timeSlot") as [-> | ?]; simpl.
    { now destruct e1, e2, e3, e4, e5. }
    destruct (String.eqb_spec k "date") as [-> | ?]; simpl.
    { now destruct e1, e2, e3, e4. }
    destruct (String.eqb_spec k "phone") as [-> | ?]; simpl.
    { now destruct e1, e2, e3. }
    destruct (String.eqb_spec k "email") as [-> | ?]; simpl.
    { now destruct e1, e2. }
    destruct (String.eqb_spec k "name") as [-> | ?]; simpl; auto.
    now destruct e1.
  - intros He Hn Hp Hd Ht.
    assert (E : validateBookingForm formData = {[ "email" := "Email is required" ]}).
    { rewrite validateBookingForm_steps, Hn, Hp, Hd, Ht. simpl.
      unfold emailError. rewrite He. reflexivity. }
    split; [exact E |]. rewrite E. apply dom_singleton_L.
Qed.

Lemma validateBookingForm_reports_each_failing_field_witness :
  validateBookingForm Examples.noEmailForm = {[ "email" := "Email is required" ]} /\
  dom (validateBookingForm Examples.noEmailForm) = ({[ "email" ]} : gset string).
Proof.
  apply (proj2 (validateBookingForm_reports_each_failing_field Examples.noEmailForm));
    reflexivity.
Defined.

(** ** Creating a booking *)

Lemma truthy_len (s : string) : truthy (Some s) = negb (Nat.eqb (len s) 0).
Proof. simpl. now rewrite eqb_empty_len. Qed.

Lemma validate_name_rule (s : string) :
  validate_name (set_name s) = None <-> rule_name (Some s) = true.
Proof.
  unfold validate_name, set_name, rule_name.
  destruct (Nat.eqb_spec (len (trim s)) 0), (Nat.ltb_spec (len (trim s)) 2),
    (Nat.ltb_spec 100 (len (trim s))), (Nat.leb_spec 2 (len (trim s))),
    (Nat.leb_spec (len (trim s)) 100); simpl; split; intros; try discriminate; auto; lia.
Qed.

Lemma validate_email_rule (s : string) :
  validate_email (set_email s) = None <-> rule_email (Some s) = true.
Proof.
  rewrite schema_email_pattern. unfold rule_email. now rewrite validateEmail_pattern.
Qed.

Lemma validate_phone_rule (s : string) :
  validate_phone (set_phone s) = None <-> server_phone (Some s) = true.
Proof.
  unfold validate_phone, set_phone, server_phone.
  destruct (Nat.eqb_spec (len (trim s)) 0), (Nat.ltb_spec (len (trim s)) 10),
    (Nat.leb_spec 10 (len (trim s))); simpl; split; intros; try discriminate; auto; lia.
Qed.

Lemma validate_date_rule (s : string) : validate_date s = None <-> rule_present (Some s) = true.
Proof.
  unfold validate_date, rule_present. rewrite truthy_len.
  destruct (Nat.eqb (len s) 0); simpl; split; intros; try discriminate; auto.
Qed.

Lemma validate_timeSlot_rule (s : string) :
  validate_timeSlot s = None <-> rule_present (Some s) = true.
Proof.
  unfold validate_timeSlot, rule_present. rewrite truthy_len.
  destruct (Nat.eqb (len s) 0); simpl; split; intros; try discriminate; auto.
Qed.

Lemma validationMessages_nil (b : Booking) :
  validationMessages b = [] <->
  validate_name (name b) = None /\ validate_email (email b) = None /\
  validate_phone (phone b) = None /\ validate_date (date b) = None /\
  validate_timeSlot (timeSlot b) = None.
Proof.
  unfold validationMessages.
  destruct (validate_name (name b)), (validate_email (email b)), (validate_phone (phone b)),
    (validate_date (date b)), (validate_timeSlot (timeSlot b)); simpl;
    split; intros H; try discriminate; auto;
    destruct H as (H1 & H2 & H3 & H4 & H5); discriminate.
Qed.

Lemma rule_name_truthy (v : option string) : rule_name v = true -> truthy v = true.
Proof. destruct v as [[| c s] |]; simpl; auto. Qed.

Lemma rule_email_truthy (v : option string) : rule_email v = true -> truthy v = true.
Proof. destruct v as [[| c s] |]; simpl; auto. Qed.

Lemma server_phone_truthy (v : option string) : server_phone v = true -> truthy v = true.
Proof. destruct v as [[| c s] |]; simpl; auto. Qed.

Lemma server_validator_fields (body : Body) :
  server_validator body = true <->
  rule_name (b_name body) = true /\ rule_email (b_email body) = true /\
  server_phone (b_phone body) = true /\ rule_present (b_date body) = true /\
  rule_present (b_timeSlot body) = true.
Proof.
  unfold server_validator. rewrite !andb_true_iff. tauto.
Qed.

(** When the route's own check passes, the schema decides. *)
Lemma schema_accepts_iff (now : Z) (body : Body) (st : State) :
  truthy (b_name body) = true -> truthy (b_email body) = true ->
  truthy (b_phone body) = true -> truthy (b_date body) = true ->
  truthy (b_timeSlot body) = true ->
  validationMessages (documentOf now body st) = [] <-> server_validator body = true.
Proof.
  destruct body as [[nm |] [em |] [ph |] [dt |] [ts |]]; simpl; try discriminate.
  intros _ _ _ _ _.
  rewrite validationMessages_nil, server_validator_fields. simpl.
  fold (set_name nm) (set_email em) (set_phone ph).
  rewrite validate_name_rule, validate_email_rule, validate_phone_rule,
    validate_date_rule, validate_timeSlot_rule. reflexivity.
Qed.

Lemma create_unfold (now : Z) (body : Body) (st : State) :
  create now body st =
  if negb (truthy (b_name body)) || negb (truthy (b_email body)) ||
     negb (truthy (b_phone body)) || negb (truthy (b_date body)) ||
     negb (truthy (b_timeSlot body))
  then (failure 400 "All fields are required", st)
  else
    let st1 := {| db := db st; oidCounter := (oidCounter st + 1)%N |} in
    match validationMessages (documentOf now body st) with
    | [] => (createdResponse (documentOf now body st),
             {| db := db st ++ [documentOf now body st]; oidCounter := oidCounter st1 |})
    | m :: ms => (failure 400 (join ", " (m :: ms)), st1)
    end.
Proof.
  unfold create, newBooking, save. fold (documentOf now body st).
  destruct (_ || _); auto.
  destruct (validationMessages _); reflexivity.
Qed.

Lemma whitespace_not_digit (c : ascii) : isWhiteSpace c = true -> isDigit c = false.
Proof. destruct c as [[] [] [] [] [] [] [] []]; vm_compute; congruence. Qed.

Lemma digits_trimStart (l : list ascii) :
  List.filter isDigit (trimStart l) = List.filter isDigit l.
Proof.
  induction l as [| c l IH]; simpl; auto.
  destruct (isWhiteSpace c) eqn:E; auto.
  now rewrite (whitespace_not_digit c E).
Qed.

Lemma digits_trimChars (l : list ascii) :
  List.filter isDigit (trimChars l) = List.filter isDigit l.
Proof.
  unfold trimChars, trimEnd.
  rewrite List.filter_rev, digits_trimStart, <- List.filter_rev, rev_involutive.
  apply digits_trimStart.
Qed.

Lemma filter_length_bound (f : ascii -> bool) (l : list ascii) :
  (List.length (List.filter f l) <= List.length l)%nat.
Proof.
  induction l as [| c l IH]; simpl; auto.
  destruct (f c); simpl; lia.
Qed.

Lemma digits_le_trim (s : string) :
  (List.length (stripNonDigits s) <= len (trim s))%nat.
Proof.
  unfold stripNonDigits, len. rewrite chars_trim, <- (digits_trimChars (chars s)).
  apply filter_length_bound.
Qed.

Lemma full_validator_server_validator (body : Body) :
  full_validator body = true -> server_validator body = true.
Proof.
  unfold full_validator, server_validator. rewrite !andb_true_iff.
  intros ((((Hn & He) & Hp) & Hd) & Ht). repeat split; auto.
  unfold rule_phone in Hp. unfold server_phone.
  destruct (b_phone body) as [ph |]; [| discriminate].
  apply Nat.eqb_eq in Hp. apply Nat.leb_le.
  pose proof (digits_le_trim ph). lia.
Qed.

Lemma wf_fresh (st : State) (b : Booking) :
  wf st -> _id b = oidCounter st -> ~ In (_id b) (map _id (db st)).
Proof.
  unfold wf. intros Hwf Hid Hin.
  apply in_map_iff in Hin as (d & Hd & Hin).
  rewrite Forall_forall in Hwf. apply list_elem_of_In in Hin.
  specialize (Hwf d Hin). simpl in Hwf. lia.
Qed.

(** C1, as the code has it.  Create checks every request on the server:
    the route requires the five fields to be non-empty, and the schema
    requires a trimmed name of 2 to 100 characters, a trimmed e-mail
    address of the pattern, and a trimmed phone number of at least 10
    characters.  A request failing any of these gets a 400 answer with no
    record and the stored records are unchanged; a request passing them is
    stored, trimmed, under a fresh identifier with the current time, and
    the stored record is returned.  Every request that passes the full
    validator (phone of exactly 10 digits) passes these checks. *)
Theorem create_validates_then_persists (now : Z) (body : Body) (st : State) :
  (server_validator body = false ->
     status (fst (create now body st)) = 400%Z /\
     success (fst (create now body st)) = false /\
     data (fst (create now body st)) = NoData /\
     db (snd (create now body st)) = db st) /\
  (server_validator body = true ->
     fst (create now body st) = createdResponse (documentOf now body st) /\
     db (snd (create now body st)) = (db st ++ [documentOf now body st])%list /\
     createdAt (documentOf now body st) = now /\
     (wf st -> ~ In (_id (documentOf now body st)) (map _id (db st)) /\
               wf (snd (create now body st)))) /\
  (full_validator body = true -> server_validator body = true).
Proof.
  split; [| split].
  - intros Hv. rewrite create_unfold.
    destruct (_ || _) eqn:R; [simpl; auto |].
    rewrite !orb_false_iff, !negb_false_iff in R.
    destruct R as ((((Rn & Re) & Rp) & Rd) & Rt).
    destruct (validationMessages (documentOf now body st)) eqn:V.
    + apply (schema_accepts_iff now body st) in V; auto. congruence.
    + simpl. auto.
  - intros Hv. rewrite create_unfold.
    pose proof Hv as Hf. apply server_validator_fields in Hf as (Hn & He & Hp & Hd & Ht).
    apply rule_name_truthy in Hn. apply rule_email_truthy in He.
    apply server_phone_truthy in Hp. unfold rule_present in Hd, Ht.
    rewrite Hn, He, Hp, Hd, Ht. simpl.
    apply (schema_accepts_iff now body st) in Hv; auto. rewrite Hv. simpl.
    split; [reflexivity |]. split; [reflexivity |]. split; [reflexivity |].
    intros Hwf. split.
    + now apply (wf_fresh st (documentOf now body st)).
    + unfold wf in *. simpl. rewrite Forall_app. split.
      * eapply Forall_impl; [exact Hwf |]. simpl. intros d Hd'. lia.
      * constructor; [simpl; lia | constructor].
  - apply full_validator_server_validator.
Qed.

Lemma create_validates_then_persists_witness :
  (fst (create 1771137000000 Examples.johnDoe Examples.emptyState) =
     createdResponse (documentOf 1771137000000 Examples.johnDoe Examples.emptyState) /\
   db (snd (create 1771137000000 Examples.johnDoe Examples.emptyState)) =
     [documentOf 1771137000000 Examples.johnDoe Examples.emptyState] /\
   wf (snd (create 1771137000000 Examples.johnDoe Examples.emptyState))) /\
  (status (fst (create 1771137000000 Examples.noEmail Examples.emptyState)) = 400%Z /\
   db (snd (create 1771137000000 Examples.noEmail Examples.emptyState)) = []) /\
  server_validator Examples.johnDoe = true.
Proof.
  assert (Hwf : wf Examples.emptyState) by constructor.
  split; [| split].
  - destruct (proj1 (proj2 (create_validates_then_persists
                              1771137000000 Examples.johnDoe Examples.emptyState)) eq_refl)
      as (H1 & H2 & _ & H3).
    split; [exact H1 |]. split; [exact H2 |]. exact (proj2 (H3 Hwf)).
  - destruct (proj1 (create_validates_then_persists
                       1771137000000 Examples.noEmail Examples.emptyState) eq_refl)
      as (H1 & _ & _ & H2).
    split; [exact H1 | exact H2].
  - exact (proj2 (proj2 (create_validates_then_persists
                           1771137000000 Examples.johnDoe Examples.emptyState)) eq_refl).
Defined.

(** C1 as worded fails: a request whose phone number has twelve digits fails
    the rule "exactly 10 digits", and Create stores it. *)
Lemma create_persists_twelve_digit_phone :
  full_validator Examples.twelveDigits = false /\
  status (fst (create 1771137000000 Examples.twelveDigits Examples.emptyState)) = 201%Z /\
  db (snd (create 1771137000000 Examples.twelveDigits Examples.emptyState)) =
    [documentOf 1771137000000 Examples.twelveDigits Examples.emptyState].
Proof. repeat split. Qed.

(** ** Listing the bookings *)

Lemma insertDesc_perm (x : Booking) (l : list Booking) :
  Permutation (insertDesc x l) (x :: l).
Proof.
  induction l as [| y l IH]; simpl; auto.
  destruct (createdAt y <? createdAt x)%Z; auto.
  rewrite IH. apply perm_swap.
Qed.

Lemma sortCreatedAtDesc_perm (l : list Booking) : Permutation (sortCreatedAtDesc l) l.
Proof.
  induction l as [| x l IH]; simpl; auto.
  rewrite insertDesc_perm. now constructor.
Qed.

Lemma insertDesc_Descending (x : Booking) (l : list Booking) :
  Descending l -> Descending (insertDesc x l).
Proof.
  induction 1 as [| y l Hy Hl IH]; simpl.
  - repeat constructor.
  - destruct (Z.ltb_spec (createdAt y) (createdAt x)).
    + constructor; [| now constructor].
      constructor; [lia |].
      eapply Forall_impl; [exact Hy |]. simpl. intros b Hb. lia.
    + constructor; auto.
      rewrite insertDesc_perm. constructor; auto.
Qed.

Lemma sortCreatedAtDesc_Descending (l : list Booking) : Descending (sortCreatedAtDesc l).
Proof.
  induction l as [| x l IH]; simpl.
  - constructor.
  - now apply insertDesc_Descending.
Qed.

Lemma Descending_newestFirst (l : list Booking) : Descending l -> newestFirst l.
Proof.
  induction 1 as [| x l Hx Hl IH]; intros i j a b Hij Hi Hj.
  - rewrite lookup_nil in Hi. discriminate.
  - destruct j as [| j]; [lia |]. simpl in Hj.
    destruct i as [| i]; simpl in Hi.
    + injection Hi as ->.
      rewrite Forall_forall in Hx. apply Hx.
      eapply list_elem_of_lookup_2; eauto.
    + apply (IH i j); auto. lia.
Qed.

(** C5.  List answers with every stored record (each exactly once, however
    many there are), most recent first by [createdAt]. *)
Theorem listAll_every_record_newest_first (st : State) :
  exists bookings : list Booking,
    listAll st = {| status := 200; success := true; message := None;
                    count := Some (List.length bookings); data := Docs bookings |} /\
    Permutation bookings (db st) /\
    newestFirst bookings.
Proof.
  exists (sortCreatedAtDesc (db st)). split; [reflexivity |]. split.
  - apply sortCreatedAtDesc_perm.
  - apply Descending_newestFirst, sortCreatedAtDesc_Descending.
Qed.

(** C10.  In the answer of List, [count] is the length of [data], which is
    the number of stored records. *)
Theorem listAll_count_is_length (st : State) :
  success (listAll st) = true /\
  exists bookings : list Booking,
    data (listAll st) = Docs bookings /\
    count (listAll st) = Some (List.length bookings) /\
    List.length bookings = List.length (db st).
Proof.
  split; [reflexivity |].
  exists (sortCreatedAtDesc (db st)). repeat split.
  apply Permutation_length, sortCreatedAtDesc_perm.
Qed.

(** ** Deleting a booking *)

Lemma removeFirst_None (oid : ObjectId) (l : list Booking) :
  removeFirst oid l = None <-> ~ In oid (map _id l).
Proof.
  induction l as [| d l IH]; simpl.
  - tauto.
  - destruct (N.eqb_spec (_id d) oid) as [E | E].
    + split; [discriminate | intros H; exfalso; apply H; now left].
    + destruct (removeFirst oid l) as [[x r] |].
      * split; [discriminate |]. intros H. exfalso.
        assert (Hn : ~ In oid (map _id l)) by tauto.
        apply IH in Hn. discriminate.
      * split; auto. intros _ [H | H]; [contradiction |].
        now apply (proj1 IH).
Qed.

Lemma removeFirst_Some (oid : ObjectId) (l : list Booking) (d : Booking) (rest : list Booking) :
  removeFirst oid l = Some (d, rest) ->
  exists l1 l2, l = (l1 ++ d :: l2)%list /\ rest = (l1 ++ l2)%list /\
                _id d = oid /\ ~ In oid (map _id l1).
Proof.
  revert rest. induction l as [| y l IH]; simpl; intros rest H; [discriminate |].
  destruct (N.eqb_spec (_id y) oid) as [E | E].
  - injection H as <- <-. exists [], l. simpl. tauto.
  - destruct (removeFirst oid l) as [[x r] |]; [| discriminate].
    injection H as -> <-.
    destruct (IH r eq_refl) as (l1 & l2 & -> & -> & Hid & Hnin).
    exists (y :: l1), l2. simpl. repeat split; auto.
    intros [H | H]; contradiction.
Qed.

(** C6, as the code has it.  For an identifier that is an ObjectId (24
    hexadecimal characters): when a record has it, DeleteOne removes that
    record and no other and answers 200; when none has it, the answer is
    the 404 "not found" failure and the store is unchanged.  A route
    parameter that is not an ObjectId is refused by the query cast and
    answered by the [catch] branch; the store is unchanged then too. *)
Theorem deleteOne_removes_or_not_found (id : string) (st : State) :
  (forall oid : ObjectId, castObjectId id = Some oid ->
     (~ In oid (map _id (db st)) -> deleteOne id st = (notFound, st)) /\
     (In oid (map _id (db st)) ->
        exists (d : Booking) (l1 l2 : list Booking),
          db st = (l1 ++ d :: l2)%list /\ _id d = oid /\ ~ In oid (map _id l1) /\
          fst (deleteOne id st) = deleted /\
          db (snd (deleteOne id st)) = (l1 ++ l2)%list)) /\
  (castObjectId id = None -> deleteOne id st = (serverError, st)) /\
  (success (fst (deleteOne id st)) = false -> snd (deleteOne id st) = st).
Proof.
  unfold deleteOne, findByIdAndDelete.
  split; [| split].
  - intros oid ->. split.
    + intros Hnin. apply removeFirst_None in Hnin. now rewrite Hnin.
    + intros Hin. destruct (removeFirst oid (db st)) as [[d rest] |] eqn:E.
      * apply removeFirst_Some in E as (l1 & l2 & E1 & -> & Hid & Hnin).
        exists d, l1, l2. simpl. auto.
      * apply removeFirst_None in E. contradiction.
  - now intros ->.
  - destruct (castObjectId id) as [oid |]; auto.
    destruct (removeFirst oid (db st)) as [[d rest] |]; simpl; auto. discriminate.
Qed.

Lemma deleteOne_removes_or_not_found_witness :
  deleteOne "0000000000000000000000ff" Examples.twoBookings = (notFound, Examples.twoBookings) /\
  (exists (d : Booking) (l1 l2 : list Booking),
      db Examples.twoBookings = (l1 ++ d :: l2)%list /\ _id d = 2%N /\
      ~ In 2%N (map _id l1) /\
      fst (deleteOne "000000000000000000000002" Examples.twoBookings) = deleted /\
      db (snd (deleteOne "000000000000000000000002" Examples.twoBookings)) = (l1 ++ l2)%list) /\
  deleteOne "abc" Examples.twoBookings = (serverError, Examples.twoBookings) /\
  snd (deleteOne "abc" Examples.twoBookings) = Examples.twoBookings.
Proof.
  split; [| split; [| split]].
  - apply (proj1 (deleteOne_removes_or_not_found
                    "0000000000000000000000ff" Examples.twoBookings) 255%N eq_refl).
    vm_compute. intuition discriminate.
  - apply (proj1 (deleteOne_removes_or_not_found
                    "000000000000000000000002" Examples.twoBookings) 2%N eq_refl).
    vm_compute. auto.
  - apply (proj1 (proj2 (deleteOne_removes_or_not_found "abc" Examples.twoBookings))).
    reflexivity.
  - apply (proj2 (proj2 (deleteOne_removes_or_not_found "abc" Examples.twoBookings))).
    reflexivity.
Defined.

(** C6 as worded fails on a route parameter that is not an ObjectId: no
    record has the identifier "abc", and the answer is the generic 500. *)
Lemma deleteOne_malformed_id_is_server_error :
  status (fst (deleteOne "abc" Examples.emptyState)) = 500%Z /\
  fst (deleteOne "abc" Examples.emptyState) <> notFound.
Proof. split; [reflexivity | discriminate]. Qed.

(** ** The report *)

Section ExportFacts.
Variable fmt : Z -> string.

Lemma addRow_rowObject (booking : Booking) (index : nat) (ws : Worksheet) :
  columns ws = exportColumns ->
  addRow (rowObject fmt booking index) ws =
  {| columns := exportColumns; rows := rows ws ++ [dataRow fmt index booking] |}.
Proof.
  intros Hc. unfold addRow. rewrite Hc. reflexivity.
Qed.

Lemma forEachAddRow_rows (bookings : list Booking) (index : nat) (ws : Worksheet) :
  columns ws = exportColumns ->
  forEachAddRow fmt bookings index ws =
  {| columns := exportColumns;
     rows := rows ws ++ imap (fun k => dataRow fmt (index + k)) bookings |}.
Proof.
  revert index ws. induction bookings as [| b bs IH]; intros index ws Hc; simpl.
  - rewrite app_nil_r. destruct ws; simpl in *. now subst.
  - rewrite IH by (rewrite addRow_rowObject; auto).
    rewrite addRow_rowObject by auto. simpl.
    rewrite <- app_assoc. simpl. rewrite Nat.add_0_r.
    f_equal. f_equal. f_equal. apply imap_ext. intros k x _. simpl.
    f_equal. lia.
Qed.
End ExportFacts.

(** C7.  The report has one header row and then one row per record, in the
    order of the list given: the 1-based position of the record, its name,
    e-mail address, phone, date, time slot, and its creation time as the
    locale formatter prints it.  An empty list gives the header row alone.
    The sheet is a function of the list and the formatter. *)
Theorem export_header_then_one_row_per_record (fmt : Z -> string) (bookings : list Booking) :
  rows (buildWorksheet fmt bookings) = headerRow :: imap (dataRow fmt) bookings /\
  List.length (rows (buildWorksheet fmt bookings)) = S (List.length bookings) /\
  (forall i : nat,
      rows (buildWorksheet fmt bookings) !! S i = dataRow fmt i <$> bookings !! i) /\
  rows (buildWorksheet fmt []) = [headerRow] /\
  (forall st : State, export fmt st = buildWorksheet fmt (sortCreatedAtDesc (db st))).
Proof.
  assert (E : rows (buildWorksheet fmt bookings) = headerRow :: imap (dataRow fmt) bookings).
  { unfold buildWorksheet. rewrite forEachAddRow_rows by reflexivity. reflexivity. }
  split; [exact E |]. split; [| split; [| split]].
  - rewrite E. simpl. now rewrite length_imap.
  - intros i. rewrite E. simpl. apply list_lookup_imap.
  - reflexivity.
  - reflexivity.
Qed.

(** ** Searching the table *)

Lemma startsWith_prefix (t s : list ascii) :
  startsWith t s = true <-> exists post, s = (t ++ post)%list.
Proof.
  revert s. induction t as [| a t IH]; intros s; simpl.
  - split; eauto.
  - destruct s as [| b s].
    + split; [discriminate | intros [post H]; discriminate].
    + destruct (ascii_dec a b) as [-> | Hne].
      * rewrite IH. split; intros [post H]; exists post.
        -- simpl. now rewrite H.
        -- simpl in H. now injection H.
      * split; [discriminate |]. intros [post H]. simpl in H.
        injection H as -> _. contradiction.
Qed.

Lemma includesChars_infix (s t : list ascii) :
  includesChars s t = true <-> exists pre post, s = (pre ++ t ++ post)%list.
Proof.
  induction s as [| c s IH]; simpl; rewrite orb_true_iff, startsWith_prefix.
  - split.
    + intros [[post H] | H]; [| discriminate]. exists [], post. exact H.
    + intros (pre & post & H). left.
      destruct pre; [| discriminate]. eauto.
  - rewrite IH. split.
    + intros [[post H] | (pre & post & H)].
      * exists [], post. exact H.
      * exists (c :: pre), post. simpl. congruence.
    + intros (pre & post & H). destruct pre as [| p pre]; simpl in H.
      * left. eauto.
      * right. exists pre, post. congruence.
Qed.

Lemma includes_Substring (s t : string) : includes s t = true <-> Substring t s.
Proof. apply includesChars_infix. Qed.

Lemma keepBooking_Matches (term : string) (b : Booking) :
  keepBooking term (toLowerCase term) b = true <-> Matches term b.
Proof.
  unfold keepBooking, Matches.
  rewrite !orb_true_iff, !includes_Substring. tauto.
Qed.

Lemma filter_all (l : list Booking) : List.filter (fun _ => true) l = l.
Proof. induction l as [| x l IH]; simpl; congruence. Qed.

Lemma allocArray_fresh (l : list Booking) (h : gmap nat (list Booking)) :
  h !! (fst (allocArray l h)) = None.
Proof. unfold allocArray. simpl. apply not_elem_of_dom, is_fresh. Qed.

Lemma allocArray_keeps (l a0 : list Booking) (h : gmap nat (list Booking)) (r0 : nat) :
  h !! r0 = Some a0 -> snd (allocArray l h) !! r0 = Some a0.
Proof.
  intros H. unfold allocArray. simpl. rewrite lookup_insert_ne; auto.
  intros <-. pose proof (allocArray_fresh l h) as F. simpl in F. congruence.
Qed.

(** C8.  The filter keeps exactly the records, in their order, for which
    the term is empty or the lowercased term is a substring of the
    lowercased name, e-mail address, date or time slot, or the term as
    typed is a substring of the phone; an empty term keeps every record.
    No array that exists before the call, the input among them, is
    changed. *)
Theorem filteredBookings_keeps_matching
    (h : gmap nat (list Booking)) (bookings : Ref) (arr : list Booking) (searchTerm : string) :
  h !! bookings = Some arr ->
  exists (r : Ref) (h' : gmap nat (list Booking)) (keep : Booking -> bool),
    filteredBookings bookings searchTerm h = Some (r, h') /\
    h' !! r = Some (List.filter keep arr) /\
    filterArray arr searchTerm = List.filter keep arr /\
    (forall b : Booking, keep b = true <-> searchTerm = "" \/ Matches searchTerm b) /\
    (searchTerm = "" -> List.filter keep arr = arr) /\
    (forall (r0 : Ref) (a0 : list Booking), h !! r0 = Some a0 -> h' !! r0 = Some a0).
Proof.
  intros Hb. unfold filteredBookings, filterArray. simpl.
  destruct (String.eqb_spec searchTerm "") as [-> | Hne]; simpl.
  - exists bookings, h, (fun _ => true). rewrite filter_all.
    repeat split; auto.
  - rewrite Hb.
    exists (fst (allocArray (List.filter (keepBooking searchTerm (toLowerCase searchTerm)) arr) h)),
           (snd (allocArray (List.filter (keepBooking searchTerm (toLowerCase searchTerm)) arr) h)),
           (keepBooking searchTerm (toLowerCase searchTerm)).
    split; [reflexivity |]. split; [apply lookup_insert_eq |]. split; [reflexivity |].
    split; [| split].
    + intros b. rewrite keepBooking_Matches. split; auto. intros [E | M]; [contradiction | exact M].
    + intros E. contradiction.
    + intros r0 a0. apply allocArray_keeps.
Qed.

Lemma filteredBookings_keeps_matching_witness :
  exists (r : Ref) (h' : gmap nat (list Booking)) (keep : Booking -> bool),
    filteredBookings 0%nat "BOB" Examples.tableHeap = Some (r, h') /\
    h' !! r = Some (List.filter keep [Examples.alice; Examples.bob]) /\
    filterArray [Examples.alice; Examples.bob] "BOB" =
      List.filter keep [Examples.alice; Examples.bob] /\
    (forall b : Booking, keep b = true <-> "BOB" = "" \/ Matches "BOB" b) /\
    ("BOB" = "" -> List.filter keep [Examples.alice; Examples.bob] =
                   [Examples.alice; Examples.bob]) /\
    (forall (r0 : Ref) (a0 : list Booking),
        Examples.tableHeap !! r0 = Some a0 -> h' !! r0 = Some a0).
Proof.
  apply (filteredBookings_keeps_matching Examples.tableHeap 0%nat
           [Examples.alice; Examples.bob] "BOB").
  reflexivity.
Defined.

(** ** Sorting the table *)

Lemma ltChars_asym (a b : list ascii) : ltChars a b = true -> ltChars b a = false.
Proof.
  revert b. induction a as [| x a IH]; intros [| y b]; simpl; auto; try discriminate.
  destruct (N.ltb_spec (code x) (code y)), (N.ltb_spec (code y) (code x));
    auto; try discriminate; lia.
Qed.

Lemma lt_asym (a b : string) : lt a b = true -> lt b a = false.
Proof. apply ltChars_asym. Qed.

Lemma lt_irrefl (a : string) : lt a a = false.
Proof. destruct (lt a a) eqn:E; auto. pose proof (lt_asym _ _ E). congruence. Qed.

Lemma lowerOrEmpty_toLowerCase (x : string) : lowerOrEmpty x = toLowerCase x.
Proof.
  unfold lowerOrEmpty. simpl.
  destruct (String.eqb_spec (toLowerCase x) ""); simpl; congruence.
Qed.

Lemma compare_nameAsc (a b : Booking) :
  compareBookings nameAsc a b =
  if lt (nameKey a) (nameKey b) then (-1)%Z
  else if lt (nameKey b) (nameKey a) then 1%Z else 0%Z.
Proof.
  unfold compareBookings, sortValue, nameKey. simpl.
  now rewrite !lowerOrEmpty_toLowerCase.
Qed.

Lemma compare_nameAsc_le0 (a b : Booking) :
  (compareBookings nameAsc a b <=? 0)%Z = negb (lt (nameKey b) (nameKey a)).
Proof.
  rewrite compare_nameAsc.
  destruct (lt (nameKey a) (nameKey b)) eqn:E.
  - now rewrite (lt_asym _ _ E).
  - now destruct (lt (nameKey b) (nameKey a)).
Qed.

Lemma arraySort_sorted_id (l : list Booking) :
  nameAscending l -> arraySort (compareBookings nameAsc) l = l.
Proof.
  induction l as [| a l IH]; intros H; [reflexivity |].
  change (arraySort (compareBookings nameAsc) (a :: l))
    with (insertBy (compareBookings nameAsc) a (arraySort (compareBookings nameAsc) l)).
  destruct l as [| b l']; [reflexivity |].
  destruct H as [Hab Hl]. rewrite (IH Hl). simpl insertBy.
  now rewrite compare_nameAsc_le0, Hab.
Qed.

Lemma nameAscending_cons_insert (x y : Booking) (l : list Booking) :
  lt (nameKey y) (nameKey x) = true ->
  nameAscending (y :: l) ->
  nameAscending (insertBy (compareBookings nameAsc) x l) ->
  nameAscending (y :: insertBy (compareBookings nameAsc) x l).
Proof.
  intros Hyx Hyl Hins. destruct l as [| z l']; simpl in *.
  - split; auto. now apply lt_asym.
  - destruct (compareBookings nameAsc x z <=? 0)%Z.
    + split; auto. now apply lt_asym.
    + split; auto. tauto.
Qed.

Lemma insertBy_nameAscending (x : Booking) (l : list Booking) :
  nameAscending l -> nameAscending (insertBy (compareBookings nameAsc) x l).
Proof.
  induction l as [| y l IH]; intros Hl.
  - simpl. auto.
  - simpl insertBy. rewrite compare_nameAsc_le0.
    destruct (lt (nameKey y) (nameKey x)) eqn:E; simpl negb; cbv iota.
    + apply nameAscending_cons_insert; auto.
      apply IH. simpl in Hl. destruct l; [exact I | tauto].
    + simpl. auto.
Qed.

Lemma arraySort_nameAscending (l : list Booking) :
  nameAscending (arraySort (compareBookings nameAsc) l).
Proof.
  induction l as [| x l IH]; simpl; auto.
  now apply insertBy_nameAscending.
Qed.

Lemma withNameKey_insertBy (k : string) (x : Booking) (l : list Booking) :
  withNameKey k (insertBy (compareBookings nameAsc) x l) = withNameKey k (x :: l).
Proof.
  unfold withNameKey. induction l as [| y l IH]; [reflexivity |].
  simpl insertBy. rewrite compare_nameAsc_le0.
  destruct (lt (nameKey y) (nameKey x)) eqn:E; simpl negb; cbv iota; [| reflexivity].
  simpl in *. rewrite IH.
  destruct (String.eqb_spec (nameKey x) k) as [Ex | Ex];
    destruct (String.eqb_spec (nameKey y) k) as [Ey | Ey]; auto.
  rewrite Ex, Ey, lt_irrefl in E. discriminate.
Qed.

Lemma withNameKey_arraySort (k : string) (l : list Booking) :
  withNameKey k (arraySort (compareBookings nameAsc) l) = withNameKey k l.
Proof.
  induction l as [| x l IH]; [reflexivity |].
  simpl arraySort. rewrite withNameKey_insertBy.
  unfold withNameKey in *. simpl. now rewrite IH.
Qed.

Lemma arraySort_perm (cmp : Booking -> Booking -> Z) (l : list Booking) :
  Permutation (arraySort cmp l) l.
Proof.
  induction l as [| x l IH]; simpl; auto.
  transitivity (x :: arraySort cmp l); [| now constructor].
  generalize (arraySort cmp l). intros m.
  induction m as [| y m IHm]; simpl; auto.
  destruct (cmp x y <=? 0)%Z; auto.
  rewrite IHm. apply perm_swap.
Qed.

(** C9.  Sorting by name ascending a list that is already in ascending
    order of lowercased name returns the same sequence, in a fresh array
    that leaves the given one as it was; so sorting twice is sorting once.
    The comparator answers 0 for records with equal keys, and the sort is
    stable: records sharing a key come out in the order they went in.  The
    result is a rearrangement of the input. *)
Theorem sort_by_name_ascending_idempotent (l : list Booking) :
  (nameAscending l -> sortArray l nameAsc = l) /\
  (forall (h : gmap nat (list Booking)) (filtered : Ref),
      h !! filtered = Some l -> nameAscending l ->
      exists (sorted : Ref) (h' : gmap nat (list Booking)),
        sortedBookings filtered nameAsc h = Some (sorted, h') /\
        h' !! sorted = Some l /\ h' !! filtered = Some l /\ sorted <> filtered) /\
  sortArray (sortArray l nameAsc) nameAsc = sortArray l nameAsc /\
  nameAscending (sortArray l nameAsc) /\
  Permutation (sortArray l nameAsc) l /\
  (forall a b : Booking, nameKey a = nameKey b -> compareBookings nameAsc a b = 0%Z) /\
  (forall k : string, withNameKey k (sortArray l nameAsc) = withNameKey k l).
Proof.
  unfold sortArray.
  split; [apply arraySort_sorted_id |].
  split; [| split; [| split; [| split; [| split]]]].
  - intros h filtered Hl Hasc. unfold sortedBookings. rewrite Hl.
    exists (fst (allocArray l h)), (<[fst (allocArray l h) := l]> h).
    assert (Hne : fst (allocArray l h) <> filtered).
    { intros E. pose proof (allocArray_fresh l h) as F. rewrite E in F. congruence. }
    split; [| split; [| split]]; auto.
    + unfold allocArray. simpl. rewrite alter_insert_eq.
      now rewrite (arraySort_sorted_id l Hasc).
    + apply lookup_insert_eq.
    + rewrite lookup_insert_ne; auto.
  - apply arraySort_sorted_id, arraySort_nameAscending.
  - apply arraySort_nameAscending.
  - apply arraySort_perm.
  - intros a b E. rewrite compare_nameAsc, E, lt_irrefl. reflexivity.
  - intros k. apply withNameKey_arraySort.
Qed.

Lemma sort_by_name_ascending_idempotent_witness :
  sortArray [Examples.alice; Examples.bob] nameAsc = [Examples.alice; Examples.bob] /\
  exists (sorted : Ref) (h' : gmap nat (list Booking)),
    sortedBookings 0%nat nameAsc Examples.tableHeap = Some (sorted, h') /\
    h' !! sorted = Some [Examples.alice; Examples.bob] /\
    h' !! 0%nat = Some [Examples.alice; Examples.bob] /\ sorted <> 0%nat.
Proof.
  assert (Hasc : nameAscending [Examples.alice; Examples.bob]).
  { simpl. split; [reflexivity | exact I]. }
  split.
  - apply (proj1 (sort_by_name_ascending_idempotent [Examples.alice; Examples.bob])).
    exact Hasc.
  - apply (proj1 (proj2 (sort_by_name_ascending_idempotent [Examples.alice; Examples.bob]))
             Examples.tableHeap 0%nat).
    + reflexivity.
    + exact Hasc.
Defined.

(** ** Runs on sample data *)

Example trim_strips_both_ends : trim "  John Doe " = "John Doe".
Proof. reflexivity. Qed.

Example toLowerCase_sample : toLowerCase "John DOE" = "john doe".
Proof. reflexivity. Qed.

Example validateEmail_sample :
  validateEmail "john@example.com" = true /\ validateEmail "john@example" = false /\
  validateEmail "john example@x.com" = false.
Proof. repeat split. Qed.

Example includes_sample :
  includes "February 15, 2026" "2026" = true /\ includes "9876543210" "2026" = false.
Proof. repeat split. Qed.

(** Three bookings created one after the other are listed newest first. *)
Example list_after_three_creates :
  let st1 := snd (create 1000 Examples.johnDoe Examples.emptyState) in
  let st2 := snd (create 2000 Examples.johnDoe st1) in
  let st3 := snd (create 3000 Examples.johnDoe st2) in
  map createdAt (sortCreatedAtDesc (find st3)) = [3000; 2000; 1000]%Z /\
  map _id (sortCreatedAtDesc (find st3)) = [2; 1; 0]%N /\
  count (listAll st3) = Some 3%nat.
Proof. repeat split. Qed.

(** Deleting by the identifier of a stored booking, then once more. *)
Example delete_then_not_found :
  let id := "000000000000000000000002" in
  castObjectId id = Some 2%N /\
  deleteOne id Examples.twoBookings = (deleted, {| db := [Examples.alice]; oidCounter := 3 |}) /\
  fst (deleteOne id (snd (deleteOne id Examples.twoBookings))) = notFound.
Proof. repeat split. Qed.

Example sort_by_name_sample :
  sortArray [Examples.bob; Examples.alice] nameAsc = [Examples.alice; Examples.bob].
Proof. reflexivity. Qed.

(* ===================================================================== *)
(** * Further properties of the code                                      *)
(* ===================================================================== *)

(** ** Trimming *)

Lemma trimStart_idem (l : list ascii) : trimStart (trimStart l) = trimStart l.
Proof.
  induction l as [| c l IH]; simpl; auto.
  destruct (isWhiteSpace c) eqn:E; auto. simpl. now rewrite E.
Qed.

Lemma trimStart_snoc_visible (m : list ascii) (c : ascii) :
  isWhiteSpace c = false -> trimStart (m ++ [c]) = (trimStart m ++ [c])%list.
Proof.
  intros Hc. induction m as [| x m IH]; simpl.
  - now rewrite Hc.
  - destruct (isWhiteSpace x); auto.
Qed.

Lemma trimEnd_cons_visible (c : ascii) (l : list ascii) :
  isWhiteSpace c = false -> trimEnd (c :: l) = c :: trimEnd l.
Proof.
  intros Hc. unfold trimEnd. simpl.
  rewrite trimStart_snoc_visible by exact Hc.
  rewrite rev_app_distr. reflexivity.
Qed.

Lemma trimEnd_idem (l : list ascii) : trimEnd (trimEnd l) = trimEnd l.
Proof. unfold trimEnd. now rewrite rev_involutive, trimStart_idem. Qed.

Lemma trimStart_head (l : list ascii) :
  trimStart l = [] \/ exists c m, trimStart l = c :: m /\ isWhiteSpace c = false.
Proof.
  induction l as [| c l IH]; simpl; auto.
  destruct (isWhiteSpace c) eqn:E; auto. right. eauto.
Qed.

Lemma trimChars_idem (l : list ascii) : trimChars (trimChars l) = trimChars l.
Proof.
  unfold trimChars.
  destruct (trimStart_head l) as [E | (c & m & E & Hc)]; rewrite E.
  - reflexivity.
  - rewrite (trimEnd_cons_visible c m Hc). simpl. rewrite Hc.
    rewrite (trimEnd_cons_visible c (trimEnd m) Hc). now rewrite trimEnd_idem.
Qed.

Lemma trim_idem (s : string) : trim (trim s) = trim s.
Proof. unfold trim. now rewrite chars_str, trimChars_idem. Qed.

Lemma forallb_rev_eq (f : ascii -> bool) (l : list ascii) :
  forallb f (rev l) = forallb f l.
Proof.
  induction l as [| c l IH]; simpl; auto.
  rewrite forallb_app, IH. simpl. rewrite andb_true_r. apply andb_comm.
Qed.

Lemma trimStart_nil_iff (l : list ascii) :
  trimStart l = [] <-> forallb isWhiteSpace l = true.
Proof.
  induction l as [| c l IH]; simpl.
  - tauto.
  - destruct (isWhiteSpace c); simpl; auto. split; discriminate.
Qed.

Lemma forallb_ws_trimStart (l : list ascii) :
  forallb isWhiteSpace (trimStart l) = forallb isWhiteSpace l.
Proof.
  induction l as [| c l IH]; simpl; auto.
  destruct (isWhiteSpace c) eqn:E; simpl; auto. now rewrite E.
Qed.

Lemma trimChars_nil_iff (l : list ascii) :
  trimChars l = [] <-> forallb isWhiteSpace l = true.
Proof.
  unfold trimChars, trimEnd.
  rewrite <- forallb_ws_trimStart, <- (forallb_rev_eq _ (trimStart l)), <- trimStart_nil_iff.
  split; intros H.
  - apply (f_equal (@rev ascii)) in H. now rewrite rev_involutive in H.
  - now rewrite H.
Qed.

Lemma trimStart_visible (l : list ascii) : forallb nonSpace l = true -> trimStart l = l.
Proof.
  destruct l as [| c l]; simpl; auto. unfold nonSpace at 1.
  destruct (isWhiteSpace c); simpl; [discriminate | reflexivity].
Qed.

Lemma trimChars_visible (l : list ascii) : forallb nonSpace l = true -> trimChars l = l.
Proof.
  intros H. unfold trimChars, trimEnd. rewrite (trimStart_visible l H).
  rewrite trimStart_visible by now rewrite forallb_rev_eq.
  apply rev_involutive.
Qed.

Lemma not_all_whitespace (l : list ascii) :
  forallb isWhiteSpace l = false <-> exists c, In c l /\ isWhiteSpace c = false.
Proof.
  induction l as [| c l IH]; simpl.
  - split; [discriminate | intros (c & [] & _)].
  - destruct (isWhiteSpace c) eqn:E; simpl.
    + rewrite IH. split.
      * intros (x & Hx & Hw). eauto.
      * intros (x & [-> | Hx] & Hw); [congruence | eauto].
    + split; auto. intros _. exists c. auto.
Qed.

(** X1.  [validateRequired] accepts a value exactly when it is a string with
    at least one character that is not whitespace: an absent value, the
    empty string and a string of blanks all fail. *)
Theorem validateRequired_needs_visible_char (value : option string) :
  validateRequired value = true <-> exists s, value = Some s /\ hasVisibleChar s.
Proof.
  unfold hasVisibleChar. destruct value as [s |]; simpl.
  - assert (E : Nat.ltb 0 (len (trim s)) = negb (forallb isWhiteSpace (chars s))).
    { unfold len. rewrite chars_trim.
      destruct (forallb isWhiteSpace (chars s)) eqn:F; simpl.
      - apply trimChars_nil_iff in F. now rewrite F.
      - destruct (trimChars (chars s)) eqn:T; [| reflexivity].
        apply trimChars_nil_iff in T. congruence. }
    rewrite E. split.
    + intros H. apply andb_true_iff in H as [_ H]. apply negb_true_iff in H.
      exists s. split; auto. now apply not_all_whitespace.
    + intros (s' & [= <-] & H). apply not_all_whitespace in H. rewrite H.
      destruct s; [discriminate H | reflexivity].
  - split; [discriminate | intros (s & H & _); discriminate].
Qed.

(** ** Accepted e-mail addresses *)

Lemma notSpaceAt_nonSpace (l : list ascii) :
  forallb notSpaceAt l = true -> forallb nonSpace l = true.
Proof.
  induction l as [| c l IH]; simpl; auto.
  intros H. apply andb_true_iff in H as [Hc Hl]. rewrite (IH Hl), andb_true_r.
  unfold notSpaceAt in Hc. apply andb_true_iff in Hc as [Hc _]. exact Hc.
Qed.

Lemma notSpaceAt_count_at (l : list ascii) :
  forallb notSpaceAt l = true -> count_occ ascii_dec l "@"%char = 0%nat.
Proof.
  intros H. apply count_occ_not_In. now apply notSpaceAt_not_at.
Qed.

(** X2.  An address [validateEmail] accepts has exactly one '@', no
    whitespace anywhere, at least five characters, and is left as it is by
    [trim]. *)
Theorem validateEmail_accepted_shape (email : string) :
  validateEmail email = true ->
  count_occ ascii_dec (chars email) "@"%char = 1%nat /\
  forallb nonSpace (chars email) = true /\
  (5 <= len email)%nat /\
  trim email = email.
Proof.
  intros H. apply validateEmail_pattern in H.
  destruct H as (l & d & t & E & Hl & Hd & Ht & Fl & Fd & Ft).
  assert (Hns : forallb nonSpace (chars email) = true).
  { rewrite E. rewrite !forallb_app. simpl.
    rewrite (notSpaceAt_nonSpace l Fl), (notSpaceAt_nonSpace d Fd), (notSpaceAt_nonSpace t Ft).
    reflexivity. }
  split; [| split; [exact Hns | split]].
  - rewrite E. rewrite !count_occ_app. simpl.
    rewrite (notSpaceAt_count_at l Fl), (notSpaceAt_count_at d Fd), (notSpaceAt_count_at t Ft).
    reflexivity.
  - unfold len. rewrite E. rewrite !length_app. simpl.
    destruct l; [congruence |]. destruct d; [congruence |]. destruct t; [congruence |].
    simpl. lia.
  - unfold trim. rewrite (trimChars_visible _ Hns). apply str_chars.
Qed.

Lemma validateEmail_accepted_shape_witness :
  count_occ ascii_dec (chars "john@example.com") "@"%char = 1%nat /\
  forallb nonSpace (chars "john@example.com") = true /\
  (5 <= len "john@example.com")%nat /\
  trim "john@example.com" = "john@example.com".
Proof. apply (validateEmail_accepted_shape "john@example.com"). reflexivity. Defined.

(** ** What Create stores *)

Lemma lowerChar_idem (c : ascii) : lowerChar (lowerChar c) = lowerChar c.
Proof. destruct c as [[] [] [] [] [] [] [] []]; reflexivity. Qed.

Lemma toLowerCase_idem (s : string) : toLowerCase (toLowerCase s) = toLowerCase s.
Proof.
  unfold toLowerCase. rewrite chars_str, map_map. f_equal.
  apply map_ext. intros c. apply lowerChar_idem.
Qed.

Lemma trim_toLowerCase (s : string) : trim (toLowerCase s) = toLowerCase (trim s).
Proof.
  unfold trim, toLowerCase. now rewrite !chars_str, trimChars_lower.
Qed.

Lemma validate_name_bounds (v : string) :
  validate_name v = None -> (2 <= len v <= 100)%nat.
Proof.
  unfold validate_name.
  destruct (Nat.eqb_spec (len v) 0), (Nat.ltb_spec (len v) 2), (Nat.ltb_spec 100 (len v));
    intros Hnone; try discriminate; lia.
Qed.

Lemma validate_phone_bound (v : string) : validate_phone v = None -> (10 <= len v)%nat.
Proof.
  unfold validate_phone.
  destruct (Nat.eqb_spec (len v) 0), (Nat.ltb_spec (len v) 10);
    intros Hnone; try discriminate; lia.
Qed.

Lemma server_validator_schemaValid (now : Z) (body : Body) (st : State) :
  server_validator body = true -> schemaValid (documentOf now body st).
Proof.
  intros Hv. pose proof Hv as Hf.
  apply server_validator_fields in Hf as (Hn & He & Hp & Hd & Ht).
  apply (schema_accepts_iff now body st); auto using rule_name_truthy,
    rule_email_truthy, server_phone_truthy.
Qed.

Lemma create_accepted (now : Z) (body : Body) (st : State) :
  server_validator body = true ->
  create now body st =
  (createdResponse (documentOf now body st),
   {| db := db st ++ [documentOf now body st]; oidCounter := (oidCounter st + 1)%N |}).
Proof.
  intros Hv. rewrite create_unfold.
  pose proof Hv as Hf. apply server_validator_fields in Hf as (Hn & He & Hp & Hd & Ht).
  apply rule_name_truthy in Hn. apply rule_email_truthy in He.
  apply server_phone_truthy in Hp. unfold rule_present in Hd, Ht.
  rewrite Hn, He, Hp, Hd, Ht. simpl.
  rewrite (server_validator_schemaValid now body st Hv). reflexivity.
Qed.

(** X3.  The record Create stores is normalised and within the schema's
    bounds: its name and phone carry no surrounding whitespace, its e-mail
    address is trimmed, in lower case and of the accepted pattern, the name
    has 2 to 100 characters, the phone at least 10, date and time slot are
    not empty; applying the schema's setters to the stored values changes
    nothing. *)
Theorem create_stores_normalised_record (now : Z) (body : Body) (st : State) :
  server_validator body = true ->
  let d := documentOf now body st in
  In d (db (snd (create now body st))) /\
  set_name (name d) = name d /\ set_email (email d) = email d /\
  set_phone (phone d) = phone d /\
  (2 <= len (name d) <= 100)%nat /\
  validateEmail (email d) = true /\ toLowerCase (email d) = email d /\
  (10 <= len (phone d))%nat /\
  date d <> "" /\ timeSlot d <> "".
Proof.
  intros Hv d.
  pose proof (server_validator_schemaValid now body st Hv) as Hs.
  apply validationMessages_nil in Hs as (Vn & Ve & Vp & Vd & Vt).
  assert (Hdb : db (snd (create now body st)) = (db st ++ [d])%list).
  { now rewrite (create_accepted now body st Hv). }
  split; [rewrite Hdb; apply in_or_app; right; now left |].
  subst d. simpl in *.
  split; [apply trim_idem |].
  split; [unfold set_email;
          rewrite <- (trim_toLowerCase (toLowerCase (Server.the (b_email body))));
          rewrite toLowerCase_idem; apply trim_idem |].
  split; [apply trim_idem |].
  split; [now apply validate_name_bounds |].
  split; [apply validateEmail_pattern; now apply validate_email_pattern |].
  split; [rewrite trim_toLowerCase; apply toLowerCase_idem |].
  split; [now apply validate_phone_bound |].
  split.
  - apply validate_date_rule in Vd. intros E. rewrite E in Vd. discriminate.
  - apply validate_timeSlot_rule in Vt. intros E. rewrite E in Vt. discriminate.
Qed.

Lemma create_stores_normalised_record_witness :
  let d := documentOf 1771137000000 Examples.johnDoe Examples.emptyState in
  In d (db (snd (create 1771137000000 Examples.johnDoe Examples.emptyState))) /\
  set_name (name d) = name d /\ set_email (email d) = email d /\
  set_phone (phone d) = phone d /\
  (2 <= len (name d) <= 100)%nat /\
  validateEmail (email d) = true /\ toLowerCase (email d) = email d /\
  (10 <= len (phone d))%nat /\
  date d <> "" /\ timeSlot d <> "".
Proof.
  apply (create_stores_normalised_record 1771137000000 Examples.johnDoe Examples.emptyState).
  reflexivity.
Defined.

(** ** The store's invariant *)

Lemma create_state_cases (now : Z) (body : Body) (st : State) :
  snd (create now body st) = st \/
  snd (create now body st) = {| db := db st; oidCounter := (oidCounter st + 1)%N |} \/
  (schemaValid (documentOf now body st) /\
   snd (create now body st) =
     {| db := db st ++ [documentOf now body st]; oidCounter := (oidCounter st + 1)%N |}).
Proof.
  rewrite create_unfold. destruct (_ || _); [now left |]. right.
  destruct (validationMessages (documentOf now body st)) eqn:V; simpl; auto.
Qed.

Lemma deleteOne_state_cases (id : string) (st : State) :
  snd (deleteOne id st) = st \/
  exists (d : Booking) (l1 l2 : list Booking),
    db st = (l1 ++ d :: l2)%list /\ castObjectId id = Some (_id d) /\
    ~ In (_id d) (map _id l1) /\
    fst (deleteOne id st) = deleted /\
    snd (deleteOne id st) = {| db := l1 ++ l2; oidCounter := oidCounter st |}.
Proof.
  unfold deleteOne, findByIdAndDelete.
  destruct (castObjectId id) as [oid |]; [| now left].
  destruct (removeFirst oid (db st)) as [[d rest] |] eqn:E; [| now left].
  apply removeFirst_Some in E as (l1 & l2 & E1 & -> & <- & Hnin).
  right. exists d, l1, l2. auto.
Qed.

Lemma NoDup_remove_middle (x : N) (l1 l2 : list N) :
  NoDup (l1 ++ x :: l2) -> NoDup (l1 ++ l2) /\ ~ In x (l1 ++ l2).
Proof.
  rewrite !NoDup_app, NoDup_cons. intros (H1 & H12 & Hx & H2). split.
  - repeat split; auto. intros y Hy Hin. apply (H12 y Hy). now right.
  - intros Hin. apply in_app_or in Hin as [Hin | Hin].
    + apply list_elem_of_In in Hin. apply (H12 x Hin). now left.
    + apply list_elem_of_In in Hin. contradiction.
Qed.

Lemma storeOk_remove (c : N) (d : Booking) (l1 l2 : list Booking) :
  storeOk {| db := l1 ++ d :: l2; oidCounter := c |} ->
  storeOk {| db := l1 ++ l2; oidCounter := c |}.
Proof.
  unfold storeOk, wf. simpl. intros (Hwf & Hnd & Hv).
  rewrite Forall_app in Hwf, Hv. rewrite map_app in Hnd. simpl in Hnd.
  apply NoDup_remove_middle in Hnd as [Hnd _].
  rewrite Forall_app, map_app, Forall_app.
  destruct Hwf as [? Hw2], Hv as [? Hv2].
  apply Forall_cons_1 in Hw2 as [_ ?]. apply Forall_cons_1 in Hv2 as [_ ?].
  auto.
Qed.

(** X4.  Every route that writes keeps the store's invariant: identifiers
    in use were drawn from the generator, no two stored records share an
    identifier, and every stored record passes the schema's validators. *)
Theorem routes_keep_store_invariant (st : State) :
  storeOk st ->
  (forall (now : Z) (body : Body), storeOk (snd (create now body st))) /\
  (forall id : string, storeOk (snd (deleteOne id st))) /\
  storeOk (snd (deleteAll st)).
Proof.
  intros Hok. split; [| split].
  - intros now body.
    destruct (create_state_cases now body st) as [-> | [-> | [Hs ->]]]; auto.
    + destruct Hok as (Hwf & Hnd & Hv). unfold storeOk, wf in *. simpl.
      repeat split; auto.
      eapply Forall_impl; [exact Hwf |]. simpl. intros d Hd. lia.
    + destruct Hok as (Hwf & Hnd & Hv). unfold storeOk, wf in *. simpl.
      split; [| split].
      * rewrite Forall_app. split.
        -- eapply Forall_impl; [exact Hwf |]. simpl. intros d Hd. lia.
        -- constructor; [simpl; lia | constructor].
      * rewrite map_app. simpl. apply NoDup_app. split; [exact Hnd |]. split.
        -- intros x Hx Hin. apply list_elem_of_In in Hx, Hin.
           destruct Hin as [<- | []].
           apply in_map_iff in Hx as (d & Hd & Hin).
           rewrite Forall_forall in Hwf. apply list_elem_of_In in Hin.
           specialize (Hwf d Hin). simpl in Hwf. lia.
        -- apply NoDup_singleton.
      * rewrite Forall_app. split; auto.
  - intros id.
    destruct (deleteOne_state_cases id st) as [-> | (d & l1 & l2 & E & _ & _ & _ & ->)]; auto.
    apply (storeOk_remove (oidCounter st) d l1 l2).
    destruct st as [dbs c]. simpl in *. now subst dbs.
  - unfold deleteAll, deleteMany, storeOk, wf. simpl.
    repeat split; constructor.
Qed.

Lemma routes_keep_store_invariant_witness :
  storeOk Examples.emptyState /\
  storeOk (snd (create 1771137000000 Examples.johnDoe Examples.emptyState)).
Proof.
  assert (H : storeOk Examples.emptyState).
  { unfold storeOk, wf. simpl. repeat split; constructor. }
  split; [exact H |].
  apply (proj1 (routes_keep_store_invariant Examples.emptyState H)).
Defined.

(** ** Create, delete and list together *)

Lemma removeFirst_last (oid : ObjectId) (l : list Booking) (d : Booking) :
  ~ In oid (map _id l) -> _id d = oid -> removeFirst oid (l ++ [d]) = Some (d, l).
Proof.
  intros Hnin Hd. induction l as [| y l IH]; simpl.
  - rewrite Hd, N.eqb_refl. reflexivity.
  - simpl in Hnin. destruct (N.eqb_spec (_id y) oid) as [E | E]; [tauto |].
    rewrite IH by tauto. reflexivity.
Qed.

(** X5.  A booking that Create has just stored is removed again by DeleteOne
    with its identifier, and the stored records are then exactly those from
    before the create. *)
Theorem create_then_deleteOne_restores (now : Z) (body : Body) (st : State) (id : string) :
  wf st ->
  server_validator body = true ->
  castObjectId id = Some (oidCounter st) ->
  fst (deleteOne id (snd (create now body st))) = deleted /\
  db (snd (deleteOne id (snd (create now body st)))) = db st.
Proof.
  intros Hwf Hv Hid.
  rewrite (create_accepted now body st Hv). simpl.
  unfold deleteOne, findByIdAndDelete. rewrite Hid. simpl.
  rewrite removeFirst_last; auto.
  apply (wf_fresh st (documentOf now body st) Hwf eq_refl).
Qed.

Lemma create_then_deleteOne_restores_witness :
  fst (deleteOne "000000000000000000000003"
         (snd (create 1771137000000 Examples.johnDoe Examples.twoBookings))) = deleted /\
  db (snd (deleteOne "000000000000000000000003"
             (snd (create 1771137000000 Examples.johnDoe Examples.twoBookings)))) =
    db Examples.twoBookings.
Proof.
  apply (create_then_deleteOne_restores 1771137000000 Examples.johnDoe Examples.twoBookings
           "000000000000000000000003").
  - unfold wf. simpl. repeat constructor.
  - reflexivity.
  - reflexivity.
Defined.

(** X6.  Deleting is not repeatable: when no two stored records share an
    identifier, a second DeleteOne with the same ObjectId answers "not
    found", whether the first one removed a record or not. *)
Theorem deleteOne_twice_not_found (id : string) (oid : ObjectId) (st : State) :
  castObjectId id = Some oid ->
  NoDup (map _id (db st)) ->
  deleteOne id (snd (deleteOne id st)) = (notFound, snd (deleteOne id st)).
Proof.
  intros Hid Hnd.
  assert (Hgone : ~ In oid (map _id (db (snd (deleteOne id st))))).
  { unfold deleteOne, findByIdAndDelete. rewrite Hid.
    destruct (removeFirst oid (db st)) as [[d rest] |] eqn:E; simpl.
    - apply removeFirst_Some in E as (l1 & l2 & E1 & -> & <- & Hnin).
      rewrite E1, map_app in Hnd. simpl in Hnd.
      apply NoDup_remove_middle in Hnd as [_ Hnd]. now rewrite map_app.
    - now apply removeFirst_None. }
  apply removeFirst_None in Hgone.
  unfold deleteOne at 1. unfold findByIdAndDelete. rewrite Hid, Hgone. reflexivity.
Qed.

Lemma deleteOne_twice_not_found_witness :
  deleteOne "000000000000000000000002"
    (snd (deleteOne "000000000000000000000002" Examples.twoBookings)) =
  (notFound, snd (deleteOne "000000000000000000000002" Examples.twoBookings)).
Proof.
  apply (deleteOne_twice_not_found "000000000000000000000002" 2%N Examples.twoBookings).
  - reflexivity.
  - simpl. apply NoDup_cons. split; [| apply NoDup_singleton].
    intros H. apply list_elem_of_In in H. destruct H as [H | []]. discriminate H.
Defined.

(** X7.  DeleteAll leaves no record behind, whatever was stored, and reports
    how many there were; after it List answers with count 0 and no data,
    the report has its header row only, no DeleteOne succeeds, and a second
    DeleteAll reports zero. *)
Theorem deleteAll_empties_the_store (fmt : Z -> string) (st : State) :
  status (fst (deleteAll st)) = 200%Z /\
  message (fst (deleteAll st)) =
    Some (numberToString (List.length (db st)) ++ " bookings deleted successfully") /\
  db (snd (deleteAll st)) = [] /\
  oidCounter (snd (deleteAll st)) = oidCounter st /\
  count (listAll (snd (deleteAll st))) = Some 0%nat /\
  data (listAll (snd (deleteAll st))) = Docs [] /\
  rows (export fmt (snd (deleteAll st))) = [headerRow] /\
  (forall id : string, success (fst (deleteOne id (snd (deleteAll st)))) = false) /\
  message (fst (deleteAll (snd (deleteAll st)))) = Some "0 bookings deleted successfully".
Proof.
  repeat split.
  intros id. unfold deleteOne, findByIdAndDelete. simpl.
  destruct (castObjectId id); reflexivity.
Qed.

Lemma validation_message_nonempty (b : Booking) :
  Forall (fun m => m <> "") (validationMessages b).
Proof.
  unfold validationMessages, validate_name, validate_email, validate_phone,
    validate_date, validate_timeSlot.
  repeat match goal with |- context [if ?c then _ else _] => destruct c end;
    simpl; repeat constructor; discriminate.
Qed.

Lemma join_nonempty (sep m : string) (ms : list string) : m <> "" -> join sep (m :: ms) <> "".
Proof.
  intros Hm. simpl. destruct ms; auto.
  destruct m; [congruence | discriminate].
Qed.

(** X8.  Every answer of the booking routes has a coherent envelope:
    [success] is true exactly when the status is 200 or 201, and an answer
    with [success] false has status 400, 404 or 500, carries no data and
    carries a message that is not empty. *)
Theorem route_envelopes_coherent (st : State) :
  (forall (now : Z) (body : Body), envelopeOk (fst (create now body st))) /\
  envelopeOk (listAll st) /\
  (forall id : string, envelopeOk (fst (deleteOne id st))) /\
  envelopeOk (fst (deleteAll st)).
Proof.
  unfold envelopeOk. split; [| split; [| split]].
  - intros now body. rewrite create_unfold.
    destruct (_ || _); simpl.
    + split; [split; [discriminate | intros [? | ?]; discriminate] |].
      intros _. split; auto. split; auto. eexists. split; [reflexivity | discriminate].
    + destruct (validationMessages (documentOf now body st)) as [| m ms] eqn:V; simpl.
      * split; [split; auto | discriminate].
      * split; [split; [discriminate | intros [? | ?]; discriminate] |].
        intros _. split; auto. split; auto. eexists. split; [reflexivity |].
        apply join_nonempty.
        pose proof (validation_message_nonempty (documentOf now body st)) as F.
        rewrite V in F. now apply Forall_cons_1 in F as [? _].
  - simpl. split; [split; auto | discriminate].
  - intros id. unfold deleteOne, findByIdAndDelete.
    destruct (castObjectId id) as [oid |]; simpl.
    + destruct (removeFirst oid (db st)) as [[d rest] |]; simpl.
      * split; [split; auto | discriminate].
      * split; [split; [discriminate | intros [? | ?]; discriminate] |].
        intros _. split; auto. split; auto. eexists. split; [reflexivity | discriminate].
    + split; [split; [discriminate | intros [? | ?]; discriminate] |].
      intros _. split; auto. split; auto. eexists. split; [reflexivity | discriminate].
  - simpl. split; [split; auto | discriminate].
Qed.

(** X9.  The report and the List route agree: the data rows of the exported
    sheet are the records List returns, in the same order and numbered from
    1, so the sheet has one row more than the store has records. *)
Theorem export_rows_follow_list (fmt : Z -> string) (st : State) :
  exists l : list Booking,
    data (listAll st) = Docs l /\
    count (listAll st) = Some (List.length l) /\
    rows (export fmt st) = headerRow :: imap (dataRow fmt) l /\
    List.length (rows (export fmt st)) = S (List.length (db st)).
Proof.
  exists (sortCreatedAtDesc (db st)).
  assert (E : rows (export fmt st) = headerRow :: imap (dataRow fmt) (sortCreatedAtDesc (db st))).
  { unfold export, buildWorksheet, find. rewrite forEachAddRow_rows by reflexivity.
    reflexivity. }
  repeat split; auto.
  rewrite E. simpl. rewrite length_imap. f_equal.
  apply Permutation_length, sortCreatedAtDesc_perm.
Qed.

Lemma insertDesc_under_newer (x : Booking) (m l : list Booking) :
  Forall (fun d => (createdAt d < createdAt x)%Z) l ->
  foldr insertDesc (x :: m) l = x :: foldr insertDesc m l.
Proof.
  induction 1 as [| y l Hy Hl IH]; simpl; auto.
  rewrite IH. simpl.
  destruct (Z.ltb_spec (createdAt x) (createdAt y)); [lia | reflexivity].
Qed.

(** X10.  A booking created at a time later than that of every stored record
    is the first record of the next List answer, followed by the records of
    the previous answer in their order. *)
Theorem new_booking_is_listed_first (now : Z) (body : Body) (st : State) :
  server_validator body = true ->
  Forall (fun d => (createdAt d < now)%Z) (db st) ->
  exists l : list Booking,
    data (listAll st) = Docs l /\
    data (listAll (snd (create now body st))) = Docs (documentOf now body st :: l) /\
    count (listAll (snd (create now body st))) = Some (S (List.length l)).
Proof.
  intros Hv Hnew. exists (sortCreatedAtDesc (db st)).
  rewrite (create_accepted now body st Hv). unfold listAll, find. simpl.
  assert (E : sortCreatedAtDesc (db st ++ [documentOf now body st]) =
              documentOf now body st :: sortCreatedAtDesc (db st)).
  { unfold sortCreatedAtDesc. rewrite foldr_app. simpl.
    apply insertDesc_under_newer. exact Hnew. }
  rewrite E. repeat split.
Qed.

Lemma new_booking_is_listed_first_witness :
  exists l : list Booking,
    data (listAll Examples.twoBookings) = Docs l /\
    data (listAll (snd (create 1771137120000 Examples.johnDoe Examples.twoBookings))) =
      Docs (documentOf 1771137120000 Examples.johnDoe Examples.twoBookings :: l) /\
    count (listAll (snd (create 1771137120000 Examples.johnDoe Examples.twoBookings))) =
      Some (S (List.length l)).
Proof.
  apply (new_booking_is_listed_first 1771137120000 Examples.johnDoe Examples.twoBookings).
  - reflexivity.
  - repeat constructor.
Defined.

(** ** The booking form *)

Lemma validateBookingForm_empty_iff (fd : FormData) :
  validateBookingForm fd = ∅ <->
  nameError (fd_name fd) = None /\ emailError (fd_email fd) = None /\
  phoneError (fd_phone fd) = None /\ dateError (fd_date fd) = None /\
  timeSlotError (fd_timeSlot fd) = None.
Proof.
  rewrite validateBookingForm_steps. split.
  - intros E.
    assert (L : forall k, recordError "timeSlot" (timeSlotError (fd_timeSlot fd))
                  (recordError "date" (dateError (fd_date fd))
                     (recordError "phone" (phoneError (fd_phone fd))
                        (recordError "email" (emailError (fd_email fd))
                           (recordError "name" (nameError (fd_name fd)) ∅)))) !! k = None).
    { intros k. rewrite E. apply lookup_empty. }
    pose proof (L "name") as L1. pose proof (L "email") as L2.
    pose proof (L "phone") as L3. pose proof (L "date") as L4.
    pose proof (L "timeSlot") as L5.
    rewrite !lookup_recordError in L1, L2, L3, L4, L5. simpl in *.
    destruct (nameError _), (emailError _), (phoneError _), (dateError _),
      (timeSlotError _); try discriminate; auto.
  - intros (-> & -> & -> & -> & ->). reflexivity.
Qed.

Lemma size_pos_iff_nonempty (m : gmap string string) : Nat.ltb 0 (size m) = false <-> m = ∅.
Proof.
  rewrite Nat.ltb_ge. split.
  - intros H. apply map_size_empty_iff. lia.
  - intros ->. rewrite map_size_empty. lia.
Qed.

Lemma validateBookingForm_lookup (fd : FormData) (k : string) :
  validateBookingForm fd !! k = fieldError fd k.
Proof.
  rewrite validateBookingForm_steps, !lookup_recordError, lookup_empty.
  unfold fieldError.
  generalize (nameError (fd_name fd)) (emailError (fd_email fd))
             (phoneError (fd_phone fd)) (dateError (fd_date fd))
             (timeSlotError (fd_timeSlot fd)).
  intros e1 e2 e3 e4 e5.
  destruct (String.eqb_spec k "timeSlot") as [-> | ?]; simpl.
  { now destruct e1, e2, e3, e4, e5. }
  destruct (String.eqb_spec k "date") as [-> | ?]; simpl.
  { now destruct e1, e2, e3, e4. }
  destruct (String.eqb_spec k "phone") as [-> | ?]; simpl.
  { now destruct e1, e2, e3. }
  destruct (String.eqb_spec k "email") as [-> | ?]; simpl.
  { now destruct e1, e2. }
  destruct (String.eqb_spec k "name") as [-> | ?]; simpl; auto.
  now destruct e1.
Qed.

Lemma fieldError_message_nonempty (fd : FormData) (k m : string) :
  fieldError fd k = Some m -> m <> "".
Proof.
  unfold fieldError, nameError, emailError, phoneError, dateError, timeSlotError.
  repeat match goal with |- context [if ?c then _ else _] => destruct c end;
    intros [= <-]; discriminate.
Qed.

Lemma validateRequired_truthy (v : option string) :
  validateRequired v = true -> truthy v = true.
Proof.
  destruct v as [s |]; simpl; [| discriminate].
  intros H. now apply andb_true_iff in H as [H _].
Qed.

Lemma accepted_email_trim (e : string) : validateEmail e = true -> trim e = e.
Proof.
  intros H. apply validateEmail_pattern in H.
  destruct H as (l & d & t & E & _ & _ & _ & Fl & Fd & Ft).
  unfold trim. rewrite trimChars_visible; [apply str_chars |].
  rewrite E, !forallb_app. simpl.
  now rewrite (notSpaceAt_nonSpace l Fl), (notSpaceAt_nonSpace d Fd), (notSpaceAt_nonSpace t Ft).
Qed.

(** A form without errors, field by field. *)
Lemma form_without_errors (fd : FormData) :
  validateBookingForm fd = ∅ ->
  exists nm em ph dt ts : string,
    fd = {| fd_name := Some nm; fd_email := Some em; fd_phone := Some ph;
            fd_date := Some dt; fd_timeSlot := Some ts |} /\
    truthy (Some nm) = true /\ (2 <= len (trim nm))%nat /\
    rule_email (Some em) = true /\ rule_phone (Some ph) = true /\
    truthy (Some dt) = true /\ truthy (Some ts) = true.
Proof.
  intros E. apply validateBookingForm_empty_iff in E as (En & Ee & Ep & Ed & Et).
  unfold nameError in En. unfold emailError in Ee. unfold phoneError in Ep.
  unfold dateError in Ed. unfold timeSlotError in Et.
  destruct fd as [vn ve vp vd vt]. simpl in *.
  destruct (validateRequired vn) eqn:Rn; simpl in En; [| discriminate].
  destruct (validateRequired ve) eqn:Re; simpl in Ee; [| discriminate].
  destruct (validateRequired vp) eqn:Rp; simpl in Ep; [| discriminate].
  destruct (validateRequired vd) eqn:Rd; simpl in Ed; [| discriminate].
  destruct (validateRequired vt) eqn:Rt; simpl in Et; [| discriminate].
  apply validateRequired_truthy in Rn, Re, Rp, Rd, Rt.
  destruct vn as [nm |]; [| discriminate]. destruct ve as [em |]; [| discriminate].
  destruct vp as [ph |]; [| discriminate]. destruct vd as [dt |]; [| discriminate].
  destruct vt as [ts |]; [| discriminate].
  exists nm, em, ph, dt, ts. simpl in *.
  destruct (Nat.ltb_spec (len (trim nm)) 2); [discriminate |].
  destruct (validateEmail em) eqn:Ve; [| discriminate].
  destruct (validatePhone ph) eqn:Vp; [| discriminate].
  repeat split; auto.
  - now rewrite (accepted_email_trim em Ve).
  - unfold validatePhone in Vp. rewrite replaceAllClass_nonDigit in Vp. exact Vp.
Qed.

Lemma validate_name_long (v : string) :
  (100 < len v)%nat -> validate_name v = Some "Name cannot exceed 100 characters".
Proof.
  intros H. unfold validate_name.
  destruct (Nat.eqb_spec (len v) 0); [lia |].
  destruct (Nat.ltb_spec (len v) 2); [lia |].
  destruct (Nat.ltb_spec 100 (len v)); [reflexivity | lia].
Qed.

(** X11.  Submitting the form.  A form with a failing field is not sent: the
    errors are shown and the server is untouched.  A form without errors
    whose trimmed name has at most 100 characters is stored by the server
    and the form is reset.  A form without errors whose trimmed name is
    longer passes the form's own check (which has no upper bound) and is
    refused by the server: the form keeps its data and shows the server's
    message, and nothing is stored. *)
Theorem handleSubmit_outcomes (now : Z) (s : FormState) (srv : State) :
  (validateBookingForm (formData s) <> ∅ ->
     handleSubmit now s srv =
       ({| formData := formData s; errors := validateBookingForm (formData s) |}, srv)) /\
  (validateBookingForm (formData s) = ∅ ->
   (len (trim (Validation.the (fd_name (formData s)))) <= 100)%nat ->
     handleSubmit now s srv =
       ({| formData := emptyForm; errors := ∅ |},
        {| db := db srv ++ [documentOf now (bodyOf (formData s)) srv];
           oidCounter := (oidCounter srv + 1)%N |})) /\
  (validateBookingForm (formData s) = ∅ ->
   (100 < len (trim (Validation.the (fd_name (formData s)))))%nat ->
     handleSubmit now s srv =
       ({| formData := formData s;
           errors := {[ "submit" := "Name cannot exceed 100 characters" ]} |},
        {| db := db srv; oidCounter := (oidCounter srv + 1)%N |})).
Proof.
  unfold handleSubmit. split; [| split].
  - intros Hne. destruct (Nat.ltb 0 (size (validateBookingForm (formData s)))) eqn:E; auto.
    apply size_pos_iff_nonempty in E. contradiction.
  - intros He Hlen. pose proof He as Hsz.
    apply size_pos_iff_nonempty in Hsz. rewrite Hsz.
    destruct (form_without_errors _ He) as (nm & em & ph & dt & ts & Efd & Tn & Ln & Re & Rp & Td & Tt).
    assert (Hv : server_validator (bodyOf (formData s)) = true).
    { apply full_validator_server_validator. rewrite Efd in *. simpl in Hlen.
      unfold full_validator, bodyOf, rule_present.
      cbn [b_name b_email b_phone b_date b_timeSlot
           fd_name fd_email fd_phone fd_date fd_timeSlot].
      rewrite Re, Rp, Td, Tt. unfold rule_name.
      rewrite (proj2 (Nat.leb_le _ _) Ln), (proj2 (Nat.leb_le _ _) Hlen). reflexivity. }
    rewrite (create_accepted now _ srv Hv). reflexivity.
  - intros He Hlen. pose proof He as Hsz.
    apply size_pos_iff_nonempty in Hsz. rewrite Hsz.
    destruct (form_without_errors _ He) as (nm & em & ph & dt & ts & Efd & Tn & Ln & Re & Rp & Td & Tt).
    rewrite Efd in *. simpl in Hlen. unfold bodyOf.
    cbn [fd_name fd_email fd_phone fd_date fd_timeSlot].
    assert (Sp : server_phone (Some ph) = true).
    { unfold rule_phone in Rp. unfold server_phone.
      apply Nat.eqb_eq in Rp. apply Nat.leb_le. pose proof (digits_le_trim ph). lia. }
    assert (V : validationMessages
                  (documentOf now {| b_name := Some nm; b_email := Some em;
                                     b_phone := Some ph; b_date := Some dt;
                                     b_timeSlot := Some ts |} srv) =
                ["Name cannot exceed 100 characters"]).
    { unfold validationMessages, documentOf. simpl.
      fold (set_name nm) (set_email em) (set_phone ph).
      rewrite (validate_name_long (set_name nm)) by exact Hlen.
      rewrite (proj2 (validate_email_rule em) Re).
      rewrite (proj2 (validate_phone_rule ph) Sp).
      rewrite (proj2 (validate_date_rule dt) Td).
      rewrite (proj2 (validate_timeSlot_rule ts) Tt). reflexivity. }
    assert (C : create now {| b_name := Some nm; b_email := Some em;
                              b_phone := Some ph; b_date := Some dt;
                              b_timeSlot := Some ts |} srv =
                (failure 400 "Name cannot exceed 100 characters",
                 {| db := db srv; oidCounter := (oidCounter srv + 1)%N |})).
    { rewrite create_unfold.
      cbn [b_name b_email b_phone b_date b_timeSlot].
      rewrite Tn, Td, Tt, (rule_email_truthy _ Re), (server_phone_truthy _ Sp).
      cbn [negb orb]. rewrite V. reflexivity. }
    rewrite C. reflexivity.
Qed.

Lemma handleSubmit_outcomes_witness :
  handleSubmit 1771137000000 Samples.freshForm Examples.emptyState =
    ({| formData := emptyForm; errors := validateBookingForm emptyForm |},
     Examples.emptyState) /\
  handleSubmit 1771137000000 {| formData := Samples.johnForm; errors := ∅ |}
    Examples.emptyState =
    ({| formData := emptyForm; errors := ∅ |},
     {| db := [documentOf 1771137000000 (bodyOf Samples.johnForm) Examples.emptyState];
        oidCounter := 1 |}) /\
  handleSubmit 1771137000000 {| formData := Samples.longNameForm; errors := ∅ |}
    Examples.emptyState =
    ({| formData := Samples.longNameForm;
        errors := {[ "submit" := "Name cannot exceed 100 characters" ]} |},
     {| db := []; oidCounter := 1 |}).
Proof.
  split; [| split].
  - apply (proj1 (handleSubmit_outcomes 1771137000000 Samples.freshForm Examples.emptyState)).
    intros E. apply (f_equal (fun m : gmap string string => m !! "name")) in E.
    vm_compute in E. discriminate E.
  - apply (proj1 (proj2 (handleSubmit_outcomes 1771137000000
                           {| formData := Samples.johnForm; errors := ∅ |}
                           Examples.emptyState))).
    + reflexivity.
    + vm_compute. lia.
  - apply (proj2 (proj2 (handleSubmit_outcomes 1771137000000
                           {| formData := Samples.longNameForm; errors := ∅ |}
                           Examples.emptyState))).
    + reflexivity.
    + vm_compute. lia.
Defined.

Lemma handleChange_hides_error (k value : string) (s : FormState) :
  shownError k (handleChange k value s) = None.
Proof.
  unfold shownError, handleChange. simpl.
  destruct (truthy (errors s !! k)) eqn:T.
  - now rewrite lookup_insert_eq.
  - now rewrite T.
Qed.

(** X12.  Typing into a field and then leaving it shows exactly that
    field's verdict on the form as it now stands: while typing no message is
    shown for the field; after leaving it the message shown is the one its
    rule gives, or none; the value typed is the field's value; and the
    messages of the other fields are as they were.  Leaving a field whose
    rule passes changes nothing. *)
Theorem change_then_blur_shows_field_verdict (k value : string) (s : FormState) :
  shownError k (handleChange k value s) = None /\
  formData (handleBlur k (handleChange k value s)) = setField k value (formData s) /\
  shownError k (handleBlur k (handleChange k value s)) =
    fieldError (setField k value (formData s)) k /\
  (forall j : string, j <> k ->
     errors (handleBlur k (handleChange k value s)) !! j = errors s !! j) /\
  (fieldError (formData s) k = None -> handleBlur k s = s).
Proof.
  split; [apply handleChange_hides_error |].
  assert (Hfd : formData (handleBlur k (handleChange k value s)) = setField k value (formData s)).
  { unfold handleBlur. destruct (truthy _); reflexivity. }
  split; [exact Hfd |]. split; [| split].
  - unfold handleBlur. rewrite validateBookingForm_lookup.
    change (formData (handleChange k value s)) with (setField k value (formData s)).
    destruct (fieldError (setField k value (formData s)) k) as [m |] eqn:E.
    + pose proof (fieldError_message_nonempty _ _ _ E) as Hm.
      assert (T : truthy (Some m) = true).
      { simpl. destruct (String.eqb_spec m ""); [contradiction | reflexivity]. }
      rewrite T. unfold shownError. simpl. rewrite lookup_insert_eq. now rewrite T.
    + simpl. apply handleChange_hides_error.
  - intros j Hj. unfold handleBlur.
    assert (E1 : errors (handleChange k value s) !! j = errors s !! j).
    { unfold handleChange. simpl. destruct (truthy (errors s !! k)); auto.
      now rewrite lookup_insert_ne. }
    destruct (truthy _); simpl; [rewrite lookup_insert_ne by congruence |]; exact E1.
  - intros E. unfold handleBlur. rewrite validateBookingForm_lookup, E. reflexivity.
Qed.

Lemma change_then_blur_shows_field_verdict_witness :
  handleBlur "email" {| formData := Samples.johnForm; errors := ∅ |} =
  {| formData := Samples.johnForm; errors := ∅ |} /\
  shownError "email"
    (handleBlur "email" (handleChange "email" "john@" Samples.freshForm)) =
  Some "Please enter a valid email address".
Proof.
  split.
  - apply (proj2 (proj2 (proj2 (proj2
             (change_then_blur_shows_field_verdict "email" ""
                {| formData := Samples.johnForm; errors := ∅ |}))))).
    reflexivity.
  - rewrite (proj1 (proj2 (proj2
               (change_then_blur_shows_field_verdict "email" "john@" Samples.freshForm)))).
    reflexivity.
Defined.

(** ** The table: any sort *)

Lemma keyLt_asym (a b : SortKey) : keyLt a b = true -> keyLt b a = false.
Proof.
  destruct a as [x | x], b as [y | y]; simpl; auto.
  - intros H. apply Z.ltb_lt in H. apply Z.ltb_ge. lia.
  - apply lt_asym.
Qed.

Lemma keyLt_irrefl (a : SortKey) : keyLt a a = false.
Proof. destruct (keyLt a a) eqn:E; auto. pose proof (keyLt_asym _ _ E). congruence. Qed.

Lemma compareBookings_antisym (cfg : SortConfig) (a b : Booking) :
  compareBookings cfg a b = (- compareBookings cfg b a)%Z.
Proof.
  unfold compareBookings.
  destruct (keyLt (sortValue cfg a) (sortValue cfg b)) eqn:E1.
  - rewrite (keyLt_asym _ _ E1). now destruct (direction cfg).
  - destruct (keyLt (sortValue cfg b) (sortValue cfg a)); now destruct (direction cfg).
Qed.

Lemma orderedBy_tail (cmp : Booking -> Booking -> Z) (a : Booking) (l : list Booking) :
  orderedBy cmp (a :: l) -> orderedBy cmp l.
Proof. destruct l; simpl; tauto. Qed.

Lemma insertBy_orderedBy (cmp : Booking -> Booking -> Z) (x : Booking) (l : list Booking) :
  (forall a b, cmp a b = (- cmp b a)%Z) ->
  orderedBy cmp l -> orderedBy cmp (insertBy cmp x l).
Proof.
  intros Hanti. induction l as [| y l IH]; intros Hl.
  - simpl. auto.
  - simpl insertBy. destruct (Z.leb_spec (cmp x y) 0) as [Hle | Hgt].
    + simpl. auto.
    + assert (Hyx : (cmp y x <= 0)%Z) by (rewrite Hanti; lia).
      specialize (IH (orderedBy_tail _ _ _ Hl)).
      destruct l as [| z l']; simpl in *.
      * auto.
      * destruct (cmp x z <=? 0)%Z; simpl in *; tauto.
Qed.

Lemma arraySort_orderedBy (cmp : Booking -> Booking -> Z) (l : list Booking) :
  (forall a b, cmp a b = (- cmp b a)%Z) -> orderedBy cmp (arraySort cmp l).
Proof.
  intros Hanti. induction l as [| x l IH]; simpl; auto.
  now apply insertBy_orderedBy.
Qed.

Lemma arraySort_ordered_id (cmp : Booking -> Booking -> Z) (l : list Booking) :
  orderedBy cmp l -> arraySort cmp l = l.
Proof.
  induction l as [| a l IH]; intros H; [reflexivity |].
  change (arraySort cmp (a :: l)) with (insertBy cmp a (arraySort cmp l)).
  rewrite (IH (orderedBy_tail _ _ _ H)).
  destruct l as [| b l']; [reflexivity |].
  destruct H as [Hab _]. simpl. apply Z.leb_le in Hab. now rewrite Hab.
Qed.

(** X13.  Whatever field and direction are chosen, the sorted list is a
    rearrangement of the filtered one (nothing lost, nothing doubled), it is
    in the order of the comparator, sorting it once more changes nothing,
    and a list that already is in that order is returned as it is. *)
Theorem sortArray_orders_any_config (cfg : SortConfig) (l : list Booking) :
  Permutation (sortArray l cfg) l /\
  List.length (sortArray l cfg) = List.length l /\
  orderedBy (compareBookings cfg) (sortArray l cfg) /\
  sortArray (sortArray l cfg) cfg = sortArray l cfg /\
  (orderedBy (compareBookings cfg) l -> sortArray l cfg = l).
Proof.
  unfold sortArray.
  assert (Ho : orderedBy (compareBookings cfg) (arraySort (compareBookings cfg) l)).
  { apply arraySort_orderedBy. apply compareBookings_antisym. }
  split; [apply arraySort_perm |].
  split; [apply Permutation_length, arraySort_perm |].
  split; [exact Ho |].
  split; [now apply arraySort_ordered_id | apply arraySort_ordered_id].
Qed.

Lemma sortArray_orders_any_config_witness :
  sortArray [Examples.bob; Examples.alice] newestFirstConfig = [Examples.bob; Examples.alice].
Proof.
  apply (proj2 (proj2 (proj2 (proj2
           (sortArray_orders_any_config newestFirstConfig [Examples.bob; Examples.alice]))))).
  simpl. split; [vm_compute; discriminate | exact I].
Defined.

(** X14.  The comparator is a consistent one: it answers -1, 0 or 1, swapping
    its arguments negates the answer, a record compares equal to itself, the
    descending comparator is the negation of the ascending one, and
    ascending it puts [a] before [b] exactly when the key of [b] is not
    smaller than the key of [a]. *)
Theorem compareBookings_consistent (cfg : SortConfig) (a b : Booking) :
  (compareBookings cfg a b = -1 \/ compareBookings cfg a b = 0 \/
   compareBookings cfg a b = 1)%Z /\
  compareBookings cfg a b = (- compareBookings cfg b a)%Z /\
  compareBookings cfg a a = 0%Z /\
  compareBookings {| field := field cfg; direction := Desc |} a b =
    (- compareBookings {| field := field cfg; direction := Asc |} a b)%Z /\
  ((compareBookings {| field := field cfg; direction := Asc |} a b <= 0)%Z <->
   keyLt (sortValue cfg b) (sortValue cfg a) = false).
Proof.
  split; [| split; [apply compareBookings_antisym | split; [| split]]].
  - unfold compareBookings.
    destruct (keyLt _ _); [destruct (direction cfg); auto |].
    destruct (keyLt _ _); [destruct (direction cfg); auto | auto].
  - unfold compareBookings. now rewrite keyLt_irrefl.
  - unfold compareBookings, sortValue. simpl.
    destruct (keyLt _ _); [reflexivity |]. now destruct (keyLt _ _).
  - unfold compareBookings, sortValue. simpl.
    fold (sortValue cfg a) (sortValue cfg b).
    destruct (keyLt (sortValue cfg a) (sortValue cfg b)) eqn:E1.
    + rewrite (keyLt_asym _ _ E1). split; [reflexivity | lia].
    + destruct (keyLt (sortValue cfg b) (sortValue cfg a)); split; intros; try lia; auto;
        discriminate.
Qed.

(** ** The table over the server's list *)

Lemma Descending_filter (f : Booking -> bool) (l : list Booking) :
  Descending l -> Descending (List.filter f l).
Proof.
  induction 1 as [| x l Hx Hl IH]; simpl; [constructor |].
  destruct (f x); auto. constructor; auto.
  rewrite Forall_forall in *. intros b Hb. apply Hx.
  apply list_elem_of_In in Hb. apply filter_In in Hb as [Hb _].
  now apply list_elem_of_In.
Qed.

Lemma Descending_filterArray (l : list Booking) (term : string) :
  Descending l -> Descending (filterArray l term).
Proof.
  intros H. unfold filterArray. destruct (negb _); auto. now apply Descending_filter.
Qed.

Lemma Descending_ordered (l : list Booking) :
  Descending l -> orderedBy (compareBookings newestFirstConfig) l.
Proof.
  induction 1 as [| x l Hx Hl IH]; simpl; auto.
  destruct l as [| y l']; auto. split; auto.
  apply Forall_cons_1 in Hx as [Hy _].
  unfold compareBookings. simpl.
  destruct (Z.ltb_spec (createdAt x) (createdAt y)); [lia |].
  destruct (createdAt y <? createdAt x)%Z; lia.
Qed.

(** X15.  With the sort the table starts with (creation time, descending)
    the table shows the records in the order the server listed them, with
    or without a search term: the rows are the matching records of the
    server's list, in its order. *)
Theorem default_view_keeps_server_order (st : State) (term : string) :
  sortArray (filterArray (sortCreatedAtDesc (find st)) term) newestFirstConfig =
    filterArray (sortCreatedAtDesc (find st)) term /\
  sortArray (sortCreatedAtDesc (find st)) newestFirstConfig = sortCreatedAtDesc (find st).
Proof.
  split; apply arraySort_ordered_id, Descending_ordered.
  - apply Descending_filterArray, sortCreatedAtDesc_Descending.
  - apply sortCreatedAtDesc_Descending.
Qed.

(** ** Narrowing a search *)








(** ** Filtering and sorting on the heap *)

(** X17.  The table's pipeline leaves the array it is given untouched, for
    every term and every sort: the sorted rows are written to an array that
    did not exist before, also when the term is empty and the filter hands
    on the given array itself; every array of the heap keeps its contents. *)
Theorem table_pipeline_never_reorders_input
    (h : gmap nat (list Booking)) (bookings : Ref) (arr : list Booking)
    (term : string) (cfg : SortConfig) :
  h !! bookings = Some arr ->
  exists (filtered sorted : Ref) (h1 h2 : gmap nat (list Booking)),
    filteredBookings bookings term h = Some (filtered, h1) /\
    sortedBookings filtered cfg h1 = Some (sorted, h2) /\
    h2 !! sorted = Some (sortArray (filterArray arr term) cfg) /\
    h !! sorted = None /\
    (term = "" -> filtered = bookings) /\
    (forall (r0 : Ref) (a0 : list Booking), h !! r0 = Some a0 -> h2 !! r0 = Some a0).
Proof.
  intros Hb.
  assert (Hf : exists filtered h1,
             filteredBookings bookings term h = Some (filtered, h1) /\
             h1 !! filtered = Some (filterArray arr term) /\
             (term = "" -> filtered = bookings) /\
             (forall r0 a0, h !! r0 = Some a0 -> h1 !! r0 = Some a0) /\
             (forall r0, h1 !! r0 = None -> h !! r0 = None)).
  { unfold filteredBookings, filterArray. simpl.
    destruct (String.eqb_spec term "") as [-> | Hne]; simpl.
    - exists bookings, h. auto.
    - rewrite Hb. eexists _, _. split; [reflexivity |].
      split; [apply lookup_insert_eq |]. split; [contradiction |]. split.
      + intros r0 a0. apply allocArray_keeps.
      + intros r0 Hr0. simpl in Hr0. apply lookup_insert_None in Hr0. tauto. }
  destruct Hf as (filtered & h1 & E1 & L1 & Hal & Hk1 & Hn1).
  exists filtered, (fst (allocArray (filterArray arr term) h1)), h1,
    (<[fst (allocArray (filterArray arr term) h1) :=
         sortArray (filterArray arr term) cfg]> h1).
  pose proof (allocArray_fresh (filterArray arr term) h1) as Hfresh.
  split; [exact E1 |]. split; [| split; [| split; [| split]]].
  - unfold sortedBookings. rewrite L1. unfold allocArray. simpl.
    now rewrite alter_insert_eq.
  - apply lookup_insert_eq.
  - now apply Hn1.
  - exact Hal.
  - intros r0 a0 H0. rewrite lookup_insert_ne; [now apply Hk1 |].
    intros <-. apply Hk1 in H0. congruence.
Qed.

Lemma table_pipeline_never_reorders_input_witness :
  exists (filtered sorted : Ref) (h1 h2 : gmap nat (list Booking)),
    filteredBookings 0%nat "" Examples.tableHeap = Some (filtered, h1) /\
    sortedBookings filtered {| field := FName; direction := Desc |} h1 = Some (sorted, h2) /\
    h2 !! sorted =
      Some (sortArray (filterArray [Examples.alice; Examples.bob] "")
              {| field := FName; direction := Desc |}) /\
    Examples.tableHeap !! sorted = None /\
    ("" = "" -> filtered = 0%nat) /\
    (forall (r0 : Ref) (a0 : list Booking),
        Examples.tableHeap !! r0 = Some a0 -> h2 !! r0 = Some a0).
Proof.
  apply (table_pipeline_never_reorders_input Examples.tableHeap 0%nat
           [Examples.alice; Examples.bob] "" {| field := FName; direction := Desc |}).
  reflexivity.
Defined.

(** ** The admin session *)

Lemma step_keeps_flag_agreement (p : Admin.Page) (e : Admin.Event) :
  Admin.isLoggedIn p = Admin.storedFlag (Admin.sessionStorage p) ->
  Admin.isLoggedIn (Admin.step p e) = Admin.storedFlag (Admin.sessionStorage (Admin.step p e)).
Proof.
  intros H. destruct e as [| u pw |]; simpl.
  - reflexivity.
  - destruct (String.eqb u Admin.ADMIN_USERNAME && String.eqb pw Admin.ADMIN_PASSWORD); simpl.
    + unfold Admin.storedFlag. now rewrite lookup_insert_eq.
    + exact H.
  - unfold Admin.storedFlag. now rewrite lookup_delete_eq.
Qed.

Lemma step_keeps_other_keys (p : Admin.Page) (e : Admin.Event) (k : string) :
  k <> "isAdminLoggedIn" ->
  Admin.sessionStorage (Admin.step p e) !! k = Admin.sessionStorage p !! k.
Proof.
  intros Hk. destruct e as [| u pw |]; simpl; auto.
  - destruct (_ && _); simpl; auto. now rewrite lookup_insert_ne.
  - now rewrite lookup_delete_ne.
Qed.

Lemma run_keeps_flag_agreement
    (storage : gmap string string) (events : list Admin.Event) (p0 : Admin.Page) :
  Admin.isLoggedIn p0 = Admin.storedFlag (Admin.sessionStorage p0) ->
  (forall k, k <> "isAdminLoggedIn" -> Admin.sessionStorage p0 !! k = storage !! k) ->
  Admin.isLoggedIn (Admin.run p0 events) =
    Admin.storedFlag (Admin.sessionStorage (Admin.run p0 events)) /\
  (forall k, k <> "isAdminLoggedIn" ->
     Admin.sessionStorage (Admin.run p0 events) !! k = storage !! k).
Proof.
  unfold Admin.run. revert p0.
  induction events as [| e events IH]; intros p0 H0 K0; simpl.
  - auto.
  - apply IH.
    + now apply step_keeps_flag_agreement.
    + intros k Hk. rewrite step_keeps_other_keys by exact Hk. now apply K0.
Qed.

(** X18.  Once the admin page has mounted, whatever sequence of login
    attempts and logouts follows, the dashboard is shown exactly when the
    session storage holds the flag "true"; and no other key of the session
    storage is ever written or removed. *)
Theorem admin_view_agrees_with_session_flag
    (storage : gmap string string) (events : list Admin.Event) :
  Admin.isLoggedIn (Admin.run (Admin.initial storage) (Admin.Mount :: events)) =
    Admin.storedFlag
      (Admin.sessionStorage (Admin.run (Admin.initial storage) (Admin.Mount :: events))) /\
  (forall k : string, k <> "isAdminLoggedIn" ->
     Admin.sessionStorage (Admin.run (Admin.initial storage) (Admin.Mount :: events)) !! k =
       storage !! k).
Proof.
  change (Admin.run (Admin.initial storage) (Admin.Mount :: events))
    with (Admin.run (Admin.step (Admin.initial storage) Admin.Mount) events).
  apply run_keeps_flag_agreement; reflexivity.
Qed.

(** X19.  A login attempt opens the dashboard exactly when the user name is
    "admin" and the password "admin123", compared as typed; a failed attempt
    leaves the session storage and the view as they were and shows the
    error message; after a logout the page mounts logged out, whatever the
    storage held. *)
Theorem login_needs_exact_credentials (p : Admin.Page) (username password : string) :
  (Admin.isLoggedIn (Admin.step p (Admin.SubmitLogin username password)) = true <->
   (username = "admin" /\ password = "admin123") \/ Admin.isLoggedIn p = true) /\
  (~ (username = "admin" /\ password = "admin123") ->
   Admin.step p (Admin.SubmitLogin username password) =
     {| Admin.sessionStorage := Admin.sessionStorage p;
        Admin.isLoggedIn := Admin.isLoggedIn p;
        Admin.loginError := "Invalid username or password" |}) /\
  ((username = "admin" /\ password = "admin123") ->
   Admin.isLoggedIn (Admin.step (Admin.initial
     (Admin.sessionStorage (Admin.step p (Admin.SubmitLogin username password))))
     Admin.Mount) = true) /\
  Admin.isLoggedIn
    (Admin.step (Admin.initial (Admin.sessionStorage (Admin.step p Admin.Logout)))
       Admin.Mount) = false.
Proof.
  simpl. unfold Admin.ADMIN_USERNAME, Admin.ADMIN_PASSWORD.
  split; [| split; [| split]].
  - destruct (String.eqb_spec username "admin") as [-> | Hu];
      destruct (String.eqb_spec password "admin123") as [-> | Hp]; simpl;
      intuition congruence.
  - intros Hne.
    destruct (String.eqb_spec username "admin") as [-> | Hu];
      destruct (String.eqb_spec password "admin123") as [-> | Hp]; simpl; auto.
    exfalso. auto.
  - intros [-> ->]. simpl. unfold Admin.storedFlag. now rewrite lookup_insert_eq.
  - unfold Admin.storedFlag. now rewrite lookup_delete_eq.
Qed.

Lemma login_needs_exact_credentials_witness :
  Admin.step (Admin.initial ∅) (Admin.SubmitLogin "Admin" "admin123") =
    {| Admin.sessionStorage := ∅; Admin.isLoggedIn := false;
       Admin.loginError := "Invalid username or password" |} /\
  Admin.isLoggedIn (Admin.step (Admin.initial
     (Admin.sessionStorage
        (Admin.step (Admin.initial ∅) (Admin.SubmitLogin "admin" "admin123"))))
     Admin.Mount) = true.
Proof.
  split.
  - apply (proj1 (proj2 (login_needs_exact_credentials (Admin.initial ∅) "Admin" "admin123"))).
    intros [H _]. discriminate H.
  - apply (proj1 (proj2 (proj2
             (login_needs_exact_credentials (Admin.initial ∅) "admin" "admin123")))).
    split; reflexivity.
Defined.

(** ** Numbers in messages, offered dates and time slots *)

Lemma digitChar_value (d : nat) : (d < 10)%nat -> (nat_of_ascii (digitChar d) - 48 = d)%nat.
Proof.
  intros H. unfold digitChar. rewrite nat_ascii_embedding by lia. lia.
Qed.

Lemma decimalDigits_step (fuel n : nat) (acc : list ascii) :
  decimalDigits (S fuel) n acc =
  if Nat.eqb (n / 10) 0 then digitChar (n mod 10) :: acc
  else decimalDigits fuel (n / 10) (digitChar (n mod 10) :: acc).
Proof. reflexivity. Qed.

Lemma decimalDigits_value (fuel n : nat) (acc : list ascii) :
  (n < fuel)%nat ->
  fold_left (fun v c => 10 * v + (nat_of_ascii c - 48)) (decimalDigits fuel n acc) 0 =
  fold_left (fun v c => 10 * v + (nat_of_ascii c - 48)) acc n.
Proof.
  revert n acc. induction fuel as [| fuel IH]; intros n acc Hn; [lia |].
  rewrite decimalDigits_step.
  pose proof (Nat.mod_upper_bound n 10 ltac:(lia)) as Hm.
  pose proof (Nat.div_mod_eq n 10) as Hd.
  destruct (Nat.eqb_spec (n / 10) 0) as [E | E].
  - cbn [fold_left]. rewrite digitChar_value by exact Hm. f_equal. lia.
  - rewrite IH.
    + cbn [fold_left]. rewrite digitChar_value by exact Hm. f_equal. lia.
    + assert (n / 10 < n)%nat by (apply Nat.div_lt; lia). lia.
Qed.

Lemma numberToString_reads_back (n : nat) : decimalValue (numberToString n) = n.
Proof.
  unfold decimalValue, numberToString. rewrite chars_str.
  rewrite decimalDigits_value by lia. reflexivity.
Qed.

Lemma pushDates_labels (n day : nat) (dates : list string) :
  Offers.pushDates n day dates =
  (dates ++ map (fun i => februaryLabel (day + i)) (seq 0 n))%list.
Proof.
  revert day dates. induction n as [| n IH]; intros day dates; simpl.
  - now rewrite app_nil_r.
  - rewrite IH, <- app_assoc. simpl. rewrite Nat.add_0_r. f_equal. f_equal.
    rewrite <- seq_shift, map_map. apply map_ext. intros i. f_equal. lia.
Qed.

(** X20.  [getFebruaryDates] yields 28 labels, the one for day [d] at index
    [d - 1] reading "February d, 2026" with [d] in decimal, all different;
    every such label and every offered time slot passes the required-field
    rule of the form and the [required] validator of the schema. *)
Theorem offered_dates_and_slots :
  List.length Offers.getFebruaryDates = 28%nat /\
  (forall d : nat, (1 <= d <= 28)%nat ->
     Offers.getFebruaryDates !! (d - 1)%nat = Some (februaryLabel d) /\
     decimalValue (numberToString d) = d) /\
  NoDup Offers.getFebruaryDates /\
  NoDup Offers.getTimeSlots /\
  (forall date slot : string,
     In date Offers.getFebruaryDates -> In slot Offers.getTimeSlots ->
     validateRequired (Some date) = true /\ validateRequired (Some slot) = true /\
     validate_date date = None /\ validate_timeSlot slot = None).
Proof.
  assert (E : Offers.getFebruaryDates = map (fun i => februaryLabel (1 + i)) (seq 0 28)).
  { unfold Offers.getFebruaryDates. now rewrite pushDates_labels. }
  split; [reflexivity |]. split; [| split; [| split]].
  - intros d Hd. split; [| apply numberToString_reads_back].
    rewrite E, list_lookup_fmap.
    rewrite lookup_seq_lt by lia. simpl. f_equal. f_equal. lia.
  - assert (H : bool_decide (NoDup Offers.getFebruaryDates) = true) by (vm_compute; reflexivity).
    now apply bool_decide_eq_true in H.
  - assert (H : bool_decide (NoDup Offers.getTimeSlots) = true) by (vm_compute; reflexivity).
    now apply bool_decide_eq_true in H.
  - intros date slot Hd Hs.
    assert (Fd : forallb (fun x => validateRequired (Some x) &&
                                   match validate_date x with None => true | _ => false end)
                   Offers.getFebruaryDates = true) by (vm_compute; reflexivity).
    assert (Fs : forallb (fun x => validateRequired (Some x) &&
                                   match validate_timeSlot x with None => true | _ => false end)
                   Offers.getTimeSlots = true) by (vm_compute; reflexivity).
    rewrite forallb_forall in Fd, Fs.
    specialize (Fd date Hd). specialize (Fs slot Hs).
    apply andb_true_iff in Fd as [Fd1 Fd2]. apply andb_true_iff in Fs as [Fs1 Fs2].
    destruct (validate_date date); [discriminate |].
    destruct (validate_timeSlot slot); [discriminate |]. auto.
Qed.

Lemma offered_dates_and_slots_witness :
  Offers.getFebruaryDates !! 14%nat = Some "February 15, 2026" /\
  validateRequired (Some "February 15, 2026") = true.
Proof.
  split.
  - apply (proj1 (proj1 (proj2 offered_dates_and_slots) 15%nat ltac:(lia))).
  - apply (proj2 (proj2 (proj2 (proj2 offered_dates_and_slots)))
             "February 15, 2026" "10:00 AM - 11:00 AM").
    + vm_compute. auto 20.
    + vm_compute. auto.
Defined.

(** ** More runs on sample data *)

Example numberToString_samples :
  numberToString 0 = "0" /\ numberToString 7 = "7" /\ numberToString 28 = "28" /\
  numberToString 105 = "105".
Proof. repeat split. Qed.

Example deleteAll_sample :
  fst (deleteAll Examples.twoBookings) =
    {| status := 200; success := true;
       message := Some "2 bookings deleted successfully"; count := None; data := NoData |}.
Proof. reflexivity. Qed.

Example create_reports_every_failing_path :
  message (fst (create 0 {| b_name := Some "J"; b_email := Some "john";
                            b_phone := Some "123"; b_date := Some "x";
                            b_timeSlot := Some "y" |} Examples.emptyState)) =
  Some "Name must be at least 2 characters, Please provide a valid email address, Phone number must be at least 10 digits".
Proof. reflexivity. Qed.

(** ** Who may call the server *)

Lemma allowedOrigins_member (env : option string) (o : string) :
  o <> "" ->
  (existsb (String.eqb o) (Cors.allowedOrigins env) = true <->
   o = "http://localhost:5173" \/ o = "http://localhost:3000" \/ env = Some o).
Proof.
  intros Ho. unfold Cors.allowedOrigins. simpl.
  destruct env as [e |]; simpl.
  - destruct (String.eqb_spec e "") as [-> | He]; simpl.
    + rewrite ?orb_false_r, !orb_true_iff, !String.eqb_eq.
      split; [tauto |]. intros [? | [? | E]]; auto. injection E as <-. contradiction.
    + rewrite ?orb_false_r, !orb_true_iff, !String.eqb_eq.
      split; [intros [? | [? | ->]]; auto |].
      intros [? | [? | E]]; auto. injection E as ->. auto.
  - rewrite ?orb_false_r, !orb_true_iff, !String.eqb_eq.
    split; [tauto |]. intros [? | [? | E]]; auto. discriminate.
Qed.

(** X21.  The CORS check lets a request through exactly when it carries no
    origin (none, or an empty one) or its origin is, character for
    character, "http://localhost:5173", "http://localhost:3000" or the
    configured FRONTEND_URL; an unset or empty FRONTEND_URL admits no further
    origin, and configuring one never shuts out an origin admitted without
    it.  A refusal is the error "Not allowed by CORS". *)
Theorem checkOrigin_exact_match (FRONTEND_URL origin : option string) :
  (Cors.checkOrigin FRONTEND_URL origin = Cors.Allowed <->
   truthy origin = false \/
   exists o, origin = Some o /\
             (o = "http://localhost:5173" \/ o = "http://localhost:3000" \/
              FRONTEND_URL = Some o)) /\
  (Cors.checkOrigin FRONTEND_URL origin = Cors.Allowed \/
   Cors.checkOrigin FRONTEND_URL origin = Cors.Refused "Not allowed by CORS") /\
  (Cors.checkOrigin None origin = Cors.Allowed ->
   Cors.checkOrigin FRONTEND_URL origin = Cors.Allowed) /\
  Cors.checkOrigin (Some "") origin = Cors.checkOrigin None origin.
Proof.
  assert (Hiff : forall env,
            Cors.checkOrigin env origin = Cors.Allowed <->
            truthy origin = false \/
            exists o, origin = Some o /\
                      (o = "http://localhost:5173" \/ o = "http://localhost:3000" \/
                       env = Some o)).
  { intros env. unfold Cors.checkOrigin, truthy.
    destruct origin as [o |]; [| split; [intros _; now left | reflexivity]].
    change (default "" (Some o)) with o.
    destruct (String.eqb_spec o "") as [-> | Ho]; cbn [negb].
    - split; [intros _; now left | reflexivity].
    - pose proof (allowedOrigins_member env o Ho) as M.
      destruct (existsb (String.eqb o) (Cors.allowedOrigins env)).
      + split; [| reflexivity]. intros _. right. exists o. split; [reflexivity |].
        apply M. reflexivity.
      + split; [discriminate |]. intros [? | (o' & [= <-] & H)]; [discriminate |].
        apply M in H. discriminate. }
  split; [apply Hiff |]. split; [| split].
  - unfold Cors.checkOrigin. destruct (negb _); auto. destruct (existsb _ _); auto.
  - intros H. apply Hiff. apply (Hiff None) in H.
    destruct H as [? | (o & ? & [? | [? | ?]])]; eauto 7. discriminate.
  - reflexivity.
Qed.

Lemma checkOrigin_exact_match_witness :
  Cors.checkOrigin (Some "https://bookmyslot.example") (Some "http://localhost:3000") =
  Cors.Allowed.
Proof.
  apply (proj1 (proj2 (proj2 (checkOrigin_exact_match
           (Some "https://bookmyslot.example") (Some "http://localhost:3000"))))).
  reflexivity.
Defined.

(** ** What the table shows *)

Lemma filter_nil_iff (f : Booking -> bool) (l : list Booking) :
  List.filter f l = [] <-> forall b, In b l -> f b = false.
Proof.
  induction l as [| x l IH]; simpl.
  - split; auto. intros _ b [].
  - destruct (f x) eqn:E.
    + split; [discriminate |]. intros H. specialize (H x (or_introl eq_refl)). congruence.
    + rewrite IH. split.
      * intros H b [<- | Hb]; auto.
      * intros H b Hb. apply H. now right.
Qed.

Lemma filterArray_nil_iff (l : list Booking) (term : string) :
  filterArray l term = [] <->
  (term = "" /\ l = []) \/ (term <> "" /\ forall b, In b l -> ~ Matches term b).
Proof.
  unfold filterArray. simpl.
  destruct (String.eqb_spec term "") as [-> | Hne]; simpl.
  - split; [auto | intros [[_ ?] | [? _]]; [auto | contradiction]].
  - rewrite filter_nil_iff. split.
    + intros H. right. split; auto. intros b Hb M.
      apply keepBooking_Matches in M. rewrite (H b Hb) in M. discriminate.
    + intros [[? _] | [_ H]]; [contradiction |]. intros b Hb.
      destruct (keepBooking term (toLowerCase term) b) eqn:K; auto.
      apply keepBooking_Matches in K. exfalso. now apply (H b Hb).
Qed.

(** X22.  The table shows "No bookings yet" exactly when there is no search
    term and no booking, and "No bookings found" exactly when there is a
    term that no booking matches.  Otherwise it shows one row per matching
    booking, numbered 1, 2, ... in the sorted order, under a label giving
    their number, with "record" in the singular for one row only. *)
Theorem render_empty_states_and_rows
    (bookings : list Booking) (term : string) (cfg : SortConfig) :
  (render bookings term cfg = EmptyState "No bookings yet" <-> term = "" /\ bookings = []) /\
  (render bookings term cfg = EmptyState "No bookings found" <->
   term <> "" /\ forall b, In b bookings -> ~ Matches term b) /\
  (filterArray bookings term <> [] ->
   exists rows : list (nat * Booking),
     render bookings term cfg =
       Rows (numberToString (List.length (filterArray bookings term)) ++ " record" ++
             (if Nat.eqb (List.length (filterArray bookings term)) 1 then "" else "s"))
            rows /\
     map snd rows = sortArray (filterArray bookings term) cfg /\
     map fst rows = seq 1 (List.length (filterArray bookings term))).
Proof.
  assert (Hlen : List.length (sortArray (filterArray bookings term) cfg) =
                 List.length (filterArray bookings term)).
  { apply Permutation_length, arraySort_perm. }
  assert (Hnil : List.length (filterArray bookings term) = 0%nat <->
                 filterArray bookings term = []).
  { destruct (filterArray bookings term); simpl; split; auto; discriminate. }
  unfold render. rewrite Hlen. simpl truthy.
  split; [| split].
  - destruct (Nat.eqb_spec (List.length (filterArray bookings term)) 0) as [E | E].
    + apply Hnil, filterArray_nil_iff in E.
      destruct (String.eqb_spec term "") as [-> | Hne]; simpl.
      * split; [intros _ | reflexivity]. destruct E as [[_ ?] | [? _]]; [auto | contradiction].
      * split; [discriminate | intros [? _]; contradiction].
    + split; [discriminate |]. intros [-> ->]. exfalso. apply E. reflexivity.
  - destruct (Nat.eqb_spec (List.length (filterArray bookings term)) 0) as [E | E].
    + apply Hnil, filterArray_nil_iff in E.
      destruct (String.eqb_spec term "") as [-> | Hne]; simpl.
      * split; [discriminate | intros [? _]; contradiction].
      * split; [intros _ | reflexivity]. destruct E as [[? _] | ?]; [contradiction | auto].
    + split; [discriminate |]. intros H. exfalso. apply E, Hnil, filterArray_nil_iff. now right.
  - intros Hne.
    destruct (Nat.eqb_spec (List.length (filterArray bookings term)) 0) as [E | E].
    + apply Hnil in E. contradiction.
    + eexists. split.
      * destruct (Nat.eqb (List.length (filterArray bookings term)) 1); reflexivity.
      * rewrite <- Hlen. generalize (sortArray (filterArray bookings term) cfg). intros l.
        split.
        -- apply list_eq. intros i. rewrite list_lookup_fmap, list_lookup_imap.
           now destruct (l !! i).
        -- apply list_eq. intros i. rewrite list_lookup_fmap, list_lookup_imap.
           destruct (l !! i) as [b |] eqn:Li; simpl.
           ++ rewrite lookup_seq_lt by (now apply lookup_lt_Some in Li). f_equal. lia.
           ++ rewrite lookup_seq_ge; auto. now apply lookup_ge_None in Li.
Qed.

Lemma render_empty_states_and_rows_witness :
  exists rows : list (nat * Booking),
    render [Examples.alice; Examples.bob] "bob" nameAsc = Rows "1 record" rows /\
    map snd rows = [Examples.bob] /\ map fst rows = [1%nat].
Proof.
  destruct (proj2 (proj2 (render_empty_states_and_rows
              [Examples.alice; Examples.bob] "bob" nameAsc))) as (rows & H1 & H2 & H3).
  - vm_compute. discriminate.
  - exists rows. split; [exact H1 |]. split; [exact H2 | exact H3].
Defined.

Lemma admin_view_agrees_with_session_flag_witness :
  Admin.sessionStorage
    (Admin.run (Admin.initial {[ "theme" := "dark" ]})
       [Admin.Mount; Admin.SubmitLogin "admin" "admin123"; Admin.Logout]) !! "theme" =
  ({[ "theme" := "dark" ]} : gmap string string) !! "theme".
Proof.
  apply (proj2 (admin_view_agrees_with_session_flag {[ "theme" := "dark" ]}
                  [Admin.SubmitLogin "admin" "admin123"; Admin.Logout])).
  discriminate.
Defined.
